(** * TACACS+ packet framing and body obfuscation

    A shallow embedding of [tacacs_plus/packet.py]: the [crypt] function,
    the [TACACSHeader] codec ([packed] / [unpacked]) and the
    [TACACSPacket] wire form, followed by the properties of the
    natural-language specification that concern them.

    Conventions of the embedding:
    - a Python [bytes] value is a [list byte];
    - a Python [int] is a [Z]; the range checks made by [struct.pack]
      are written out and raise [struct_error];
    - a Python [str] is the list of its code points, and a value that is
      a [str] or [None] is an [option str];
    - a call that may raise returns a [result]; exceptions propagate
      through [bind], in the evaluation order of the source. *)

From Stdlib Require Import ZArith List Lia Bool.
From Stdlib Require Import Init.Byte Strings.Byte.
Import ListNotations.

Local Open Scope Z_scope.

(** ** Python values and exceptions *)

Definition bytes := list byte.

(** A [str]: the sequence of its Unicode code points. *)
Definition str := list N.

(** The exceptions that the modelled code can raise. *)
Inductive exn : Set :=
| struct_error          (* struct.error *)
| UnicodeEncodeError    (* raised by str.encode inside six.b *)
| AttributeError        (* None has no attribute encode *)
| IndexError            (* pop from empty list *)
| ValueError.           (* raised by TACACSHeader.unpacked *)

(** Outcome of running a piece of the program: a value, a raised
    exception, or a loop that was cut off by the iteration budget of the
    model. *)
Inductive result (A : Type) : Type :=
| Ok (a : A)
| Raise (e : exn)
| OutOfFuel.

Arguments Ok {A} a.
Arguments Raise {A} e.
Arguments OutOfFuel {A}.

Definition bind {A B : Type} (r : result A) (k : A -> result B) : result B :=
  match r with
  | Ok a => k a
  | Raise e => Raise e
  | OutOfFuel => OutOfFuel
  end.

Notation "x <- r ;; k" := (bind r (fun x => k))
  (at level 61, r at next level, right associativity).
Notation "' p <- r ;; k" := (bind r (fun x => let p := x in k))
  (at level 61, p pattern, r at next level, right associativity).

(** ** Bytes as integers *)

(** The integer value of a byte, as iterating over [bytes] or
    [struct.unpack('B', ...)] gives it. *)
Definition ord (b : byte) : Z := Z.of_N (Byte.to_N b).

(** The byte whose value is [z mod 256]. *)
Definition chr (z : Z) : byte :=
  match Byte.of_N (Z.to_N (z mod 256)) with
  | Some b => b
  | None => x00
  end.

(** ** The [struct] module, for the format strings used by the source *)

Module struct.

(** [struct.pack('B', v)] *)
Definition pack_B (v : Z) : result bytes :=
  if (0 <=? v) && (v <=? 255) then Ok [chr v] else Raise struct_error.

(** [struct.pack('B' * n, *vs)] with [n = len(vs)] *)
Fixpoint pack_Bs (vs : list Z) : result bytes :=
  match vs with
  | [] => Ok []
  | v :: vs' =>
      b <- pack_B v ;;
      bs <- pack_Bs vs' ;;
      Ok (b ++ bs)
  end.

(** [struct.pack('BBBB', a, b, c, d)] *)
Definition pack_BBBB (a b c d : Z) : result bytes := pack_Bs [a; b; c; d].

(** [struct.pack('!I', v)]: network-order unsigned 32-bit integer *)
Definition pack_I (v : Z) : result bytes :=
  if (0 <=? v) && (v <=? 4294967295) then
    Ok [chr (Z.shiftr v 24); chr (Z.shiftr v 16);
        chr (Z.shiftr v 8); chr v]
  else Raise struct_error.

(** [struct.unpack('B' * len(data), data)] *)
Definition unpack_Bs (data : bytes) : list Z := map ord data.

(** [struct.unpack('BBBB', data)]: the buffer must hold exactly 4 bytes *)
Definition unpack_BBBB (data : bytes) : result (Z * Z * Z * Z) :=
  match data with
  | [a; b; c; d] => Ok (ord a, ord b, ord c, ord d)
  | _ => Raise struct_error
  end.

(** Big-endian value of four bytes. *)
Definition be32 (a b c d : byte) : Z :=
  Z.lor (Z.shiftl (ord a) 24)
    (Z.lor (Z.shiftl (ord b) 16) (Z.lor (Z.shiftl (ord c) 8) (ord d))).

(** [struct.unpack('!II', data)]: the buffer must hold exactly 8 bytes *)
Definition unpack_II (data : bytes) : result (Z * Z) :=
  match data with
  | [a; b; c; d; e; f; g; h] => Ok (be32 a b c d, be32 e f g h)
  | _ => Raise struct_error
  end.

End struct.

(** ** [six] *)

Module six.

(** [s.encode("latin-1")]: a code point above 255 cannot be encoded. *)
Fixpoint encode_latin1 (s : str) : result bytes :=
  match s with
  | [] => Ok []
  | c :: s' =>
      match Byte.of_N c with
      | Some x => (xs <- encode_latin1 s' ;; Ok (x :: xs))
      | None => Raise UnicodeEncodeError
      end
  end.

(** [six.b(s)], that is [s.encode("latin-1")] (under Python 2 a [str] is
    a byte string already and is returned as it is); [None] has no such
    method. *)
Definition b (s : option str) : result bytes :=
  match s with
  | Some s' => encode_latin1 s'
  | None => Raise AttributeError
  end.

(** [six.BytesIO(raw)]: the unread remainder of the stream. *)
Definition BytesIO (raw : bytes) : bytes := raw.

(** [stream.read(n)]: up to [n] bytes, and the stream after them. *)
Definition read (n : nat) (stream : bytes) : bytes * bytes :=
  (firstn n stream, skipn n stream).

End six.

(** ** [hashlib.md5]

    The MD5 message digest of RFC 1321, on 32-bit words held in [Z] with
    the wrap-around written out. The source only calls
    [md5(data).digest()]. *)

Module hashlib.

Definition mask32 : Z := 0xffffffff.

Definition add32 (x y : Z) : Z := Z.land (x + y) mask32.

Definition not32 (x : Z) : Z := Z.lxor x mask32.

Definition rotl32 (x c : Z) : Z :=
  Z.lor (Z.land (Z.shiftl x c) mask32) (Z.shiftr x (32 - c)).

(** Per-round additive constants, [floor(2^32 * abs(sin(i + 1)))]. *)
Definition K : list Z :=
  [ 0xd76aa478; 0xe8c7b756; 0x242070db; 0xc1bdceee;
    0xf57c0faf; 0x4787c62a; 0xa8304613; 0xfd469501;
    0x698098d8; 0x8b44f7af; 0xffff5bb1; 0x895cd7be;
    0x6b901122; 0xfd987193; 0xa679438e; 0x49b40821;
    0xf61e2562; 0xc040b340; 0x265e5a51; 0xe9b6c7aa;
    0xd62f105d; 0x02441453; 0xd8a1e681; 0xe7d3fbc8;
    0x21e1cde6; 0xc33707d6; 0xf4d50d87; 0x455a14ed;
    0xa9e3e905; 0xfcefa3f8; 0x676f02d9; 0x8d2a4c8a;
    0xfffa3942; 0x8771f681; 0x6d9d6122; 0xfde5380c;
    0xa4beea44; 0x4bdecfa9; 0xf6bb4b60; 0xbebfbc70;
    0x289b7ec6; 0xeaa127fa; 0xd4ef3085; 0x04881d05;
    0xd9d4d039; 0xe6db99e5; 0x1fa27cf8; 0xc4ac5665;
    0xf4292244; 0x432aff97; 0xab9423a7; 0xfc93a039;
    0x655b59c3; 0x8f0ccc92; 0xffeff47d; 0x85845dd1;
    0x6fa87e4f; 0xfe2ce6e0; 0xa3014314; 0x4e0811a1;
    0xf7537e82; 0xbd3af235; 0x2ad7d2bb; 0xeb86d391 ].

(** Per-round left-rotation amounts. *)
Definition shifts : list Z :=
  [ 7; 12; 17; 22; 7; 12; 17; 22; 7; 12; 17; 22; 7; 12; 17; 22;
    5;  9; 14; 20; 5;  9; 14; 20; 5;  9; 14; 20; 5;  9; 14; 20;
    4; 11; 16; 23; 4; 11; 16; 23; 4; 11; 16; 23; 4; 11; 16; 23;
    6; 10; 15; 21; 6; 10; 15; 21; 6; 10; 15; 21; 6; 10; 15; 21 ].

Definition state : Type := Z * Z * Z * Z.

Definition init : state := (0x67452301, 0xefcdab89, 0x98badcfe, 0x10325476).

(** Little-endian 32-bit words of a block. *)
Fixpoint words (n : nat) (data : bytes) : list Z :=
  match n, data with
  | S n', b0 :: b1 :: b2 :: b3 :: rest =>
      (ord b0 + ord b1 * 2 ^ 8 + ord b2 * 2 ^ 16 + ord b3 * 2 ^ 24)
        :: words n' rest
  | _, _ => []
  end.

Definition le32 (w : Z) : bytes :=
  [chr w; chr (Z.shiftr w 8); chr (Z.shiftr w 16); chr (Z.shiftr w 24)].

Definition le64 (w : Z) : bytes :=
  le32 (Z.land w mask32) ++ le32 (Z.land (Z.shiftr w 32) mask32).

Definition step (M : list Z) (st : state) (i : nat) : state :=
  let '(A, B, C, D) := st in
  let iz := Z.of_nat i in
  let '(F, g) :=
    if (i <? 16)%nat then
      (Z.lor (Z.land B C) (Z.land (not32 B) D), iz)
    else if (i <? 32)%nat then
      (Z.lor (Z.land D B) (Z.land (not32 D) C), (5 * iz + 1) mod 16)
    else if (i <? 48)%nat then
      (Z.lxor (Z.lxor B C) D, (3 * iz + 5) mod 16)
    else
      (Z.lxor C (Z.lor B (not32 D)), (7 * iz) mod 16) in
  let F' := add32 (add32 (add32 F A) (nth i K 0)) (nth (Z.to_nat g) M 0) in
  (D, add32 B (rotl32 F' (nth i shifts 0)), B, C).

Definition compress (st : state) (block : bytes) : state :=
  let '(a0, b0, c0, d0) := st in
  let '(A, B, C, D) := fold_left (step (words 16 block)) (seq 0 64) st in
  (add32 a0 A, add32 b0 B, add32 c0 C, add32 d0 D).

Fixpoint blocks (n : nat) (data : bytes) (st : state) : state :=
  match n with
  | O => st
  | S n' => blocks n' (skipn 64 data) (compress st (firstn 64 data))
  end.

(** The message followed by a 1 bit, zeros up to 56 mod 64, and the
    bit length as a little-endian 64-bit integer. *)
Definition padded (data : bytes) : bytes :=
  let n := Z.of_nat (length data) in
  data ++ [x80] ++ repeat x00 (Z.to_nat ((55 - n) mod 64))
       ++ le64 (Z.land (8 * n) 0xffffffffffffffff).

(** [md5(data).digest()] *)
Definition md5 (data : bytes) : bytes :=
  let p := padded data in
  let '(a, b, c, d) := blocks (length p / 64) p init in
  le32 a ++ le32 b ++ le32 c ++ le32 d.

(** [md5().digest_size] *)
Definition digest_size : nat := 16.

End hashlib.

(** ** Built-in string operations *)

From Stdlib Require Strings.String DecimalZ.

Module builtins.

Import Stdlib.Strings.String.

(** A string literal of the source, as the list of its code points. *)
Definition lit (s : string) : str :=
  List.map Byte.to_N (list_byte_of_string s).

(** The characters of a sequence of decimal digits. *)
Fixpoint digits (d : Decimal.uint) : str :=
  match d with
  | Decimal.Nil => []
  | Decimal.D0 d' => 48%N :: digits d'
  | Decimal.D1 d' => 49%N :: digits d'
  | Decimal.D2 d' => 50%N :: digits d'
  | Decimal.D3 d' => 51%N :: digits d'
  | Decimal.D4 d' => 52%N :: digits d'
  | Decimal.D5 d' => 53%N :: digits d'
  | Decimal.D6 d' => 54%N :: digits d'
  | Decimal.D7 d' => 55%N :: digits d'
  | Decimal.D8 d' => 56%N :: digits d'
  | Decimal.D9 d' => 57%N :: digits d'
  end.

(** [str(z)] for an [int]: its decimal digits, after a minus sign when it
    is negative. *)
Definition str_of_int (z : Z) : str :=
  match Z.to_int z with
  | Decimal.Pos d => digits d
  | Decimal.Neg d => 45%N :: digits d
  end.

(** ['<prefix>%s' % z] for an [int] [z]. *)
Definition percent_s (prefix : str) (z : Z) : str := prefix ++ str_of_int z.

(** [sep.join(xs)] *)
Fixpoint join (sep : str) (xs : list str) : str :=
  match xs with
  | [] => []
  | x :: rest =>
      match rest with
      | [] => x
      | _ :: _ => x ++ sep ++ join sep rest
      end
  end.

(** The string literals of [TACACSHeader.__str__]. *)
Definition comma_space : str := lit ", ".

Definition version_ : str := lit "version: ".

Definition type_ : str := lit "type: ".

Definition session_id_ : str := lit "session_id: ".

Definition length_ : str := lit "length: ".

Definition seq_no_ : str := lit "seq_no: ".

Definition flags_ : str := lit "flags: ".

(** The text of a header with version 193, type 1, session_id 305419896,
    length 0, seq_no 1 and flags 0. *)
Definition scenario_3_line : str :=
  lit ("version: 193, type: 1, session_id: 305419896, "
       ++ "length: 0, seq_no: 1, flags: 0").

End builtins.

(** ** [class TACACSHeader] *)

Module TACACSHeader.

(** The fields set by [__init__], in the order of its parameters. *)
Record t : Set := mk {
  version : Z;
  type : Z;
  session_id : Z;
  length : Z;
  seq_no : Z;
  flags : Z
}.

Definition version_max (self : t) : Z := version self / 0x10.

Definition version_min (self : t) : Z := version self mod 0x10.

Definition packed (self : t) : result bytes :=
  b4 <- struct.pack_BBBB (version self) (type self)
                         (seq_no self) (flags self) ;;
  sid <- struct.pack_I (session_id self) ;;
  len <- struct.pack_I (length self) ;;
  Ok ((b4 ++ sid) ++ len).

Definition unpacked (raw : bytes) : result t :=
  let raw := six.BytesIO raw in
  let '(raw_chars, raw) := six.read 4 raw in
  match raw_chars with
  | _ :: _ =>
      '(version, type, seq_no, flags) <- struct.unpack_BBBB raw_chars ;;
      let '(chunk, raw) := six.read 8 raw in
      '(session_id, length) <- struct.unpack_II chunk ;;
      Ok (mk version type session_id length seq_no flags)
  | [] => Raise ValueError
  end.

Definition __str__ (self : t) : str :=
  builtins.join builtins.comma_space
    [ builtins.percent_s builtins.version_ (version self);
      builtins.percent_s builtins.type_ (type self);
      builtins.percent_s builtins.session_id_ (session_id self);
      builtins.percent_s builtins.length_ (length self);
      builtins.percent_s builtins.seq_no_ (seq_no self);
      builtins.percent_s builtins.flags_ (flags self) ].

End TACACSHeader.

(** ** [crypt] *)

(** The [while True] loop that extends the pad: one more chained hash per
    iteration, until the pad covers the body. [fuel] bounds the number of
    iterations. *)
Fixpoint pad_loop (fuel : nat) (unhashed hashed pad : bytes)
    (body_length : nat) : result bytes :=
  match fuel with
  | O => OutOfFuel
  | S fuel' =>
      let hashed := hashlib.md5 (unhashed ++ hashed) in
      let pad := pad ++ hashed in
      if (body_length <=? length pad)%nat then Ok pad
      else pad_loop fuel' unhashed hashed pad body_length
  end.

(** The [for] loop over the body: each byte is combined with the byte
    popped from the front of [pad] and appended to [packet_body]. *)
Fixpoint xor_loop (xs pad packet_body : list Z) : result (list Z) :=
  match xs with
  | [] => Ok packet_body
  | x :: xs' =>
      match pad with
      | [] => Raise IndexError
      | p :: pad' => xor_loop xs' pad' (packet_body ++ [Z.lxor x p])
      end
  end.

Definition crypt_fuel (fuel : nat) (header : TACACSHeader.t)
    (body_bytes : bytes) (secret : option str) : result bytes :=
  let body_length := length body_bytes in
  sid <- struct.pack_I (TACACSHeader.session_id header) ;;
  key <- six.b secret ;;
  ver <- struct.pack_B (TACACSHeader.version header) ;;
  seq <- struct.pack_B (TACACSHeader.seq_no header) ;;
  let unhashed := ((sid ++ key) ++ ver) ++ seq in
  let hashed := hashlib.md5 unhashed in
  let pad := hashed in
  pad <- (if (length pad <? body_length)%nat
          then pad_loop fuel unhashed hashed pad body_length
          else Ok pad) ;;
  let pad := firstn body_length pad in
  let pad := struct.unpack_Bs pad in
  packet_body <- xor_loop (struct.unpack_Bs body_bytes) pad [] ;;
  struct.pack_Bs packet_body.

(** [crypt(header, body_bytes, secret)]. Every iteration of the pad loop
    appends a 16-byte digest, so [len(body_bytes)] iterations are never
    used up: [crypt] always returns or raises (lemma [crypt_terminates]),
    with the outcome of every larger budget (lemma [crypt_fuel_enough]). *)
Definition crypt (header : TACACSHeader.t) (body_bytes : bytes)
    (secret : option str) : result bytes :=
  crypt_fuel (length body_bytes) header body_bytes secret.

(** ** [class TACACSPacket] *)

Module TACACSPacket.

Record t : Type := mk {
  header : TACACSHeader.t;
  body_bytes : bytes;
  secret : option str
}.

Definition encrypted (self : t) : bool :=
  match secret self with
  | Some _ => true
  | None => false
  end.

Definition seq_no (self : t) : Z := TACACSHeader.seq_no (header self).

Definition crypt (self : t) : result bytes :=
  crypt (header self) (body_bytes self) (secret self).

Definition body (self : t) : result bytes :=
  if encrypted self then crypt self else Ok (body_bytes self).

Definition __bytes__ (self : t) : result bytes :=
  hp <- TACACSHeader.packed (header self) ;;
  b <- body self ;;
  Ok (hp ++ b).

End TACACSPacket.

(** ** Value ranges of the data model *)

Definition uint8 (z : Z) : Prop := 0 <= z <= 255.

Definition uint32 (z : Z) : Prop := 0 <= z <= 4294967295.

(** A string that only holds code points up to 255, i.e. a byte string. *)
Definition latin1 (s : str) : Prop := Forall (fun c => (c <= 255)%N) s.

(** Every field of the header lies in the range of its wire width. *)
Definition in_range (h : TACACSHeader.t) : Prop :=
  uint8 (TACACSHeader.version h) /\ uint8 (TACACSHeader.type h) /\
  uint8 (TACACSHeader.seq_no h) /\ uint8 (TACACSHeader.flags h) /\
  uint32 (TACACSHeader.session_id h) /\ uint32 (TACACSHeader.length h).

(** The fields that [crypt] reads lie in the range of their wire width. *)
Definition pad_fields_in_range (h : TACACSHeader.t) : Prop :=
  uint32 (TACACSHeader.session_id h) /\
  uint8 (TACACSHeader.version h) /\ uint8 (TACACSHeader.seq_no h).

(** ** The state of [crypt] between its two halves *)

(** The value of [pad] when [crypt] has left the pad loop, before the
    truncation [pad[0:body_length]]: the first statements of [crypt],
    up to that point. *)
Definition crypt_pad (fuel : nat) (header : TACACSHeader.t)
    (body_length : nat) (secret : option str) : result bytes :=
  sid <- struct.pack_I (TACACSHeader.session_id header) ;;
  key <- six.b secret ;;
  ver <- struct.pack_B (TACACSHeader.version header) ;;
  seq <- struct.pack_B (TACACSHeader.seq_no header) ;;
  let unhashed := ((sid ++ key) ++ ver) ++ seq in
  let hashed := hashlib.md5 unhashed in
  let pad := hashed in
  if (length pad <? body_length)%nat
  then pad_loop fuel unhashed hashed pad body_length
  else Ok pad.

(** ** The pseudo-pad in the words of the specification *)

Module Spec.

(** The 4-byte big-endian encoding of an unsigned 32-bit integer. *)
Definition be4 (v : Z) : bytes :=
  map chr [v / 2 ^ 24; v / 2 ^ 16 mod 256; v / 2 ^ 8 mod 256; v mod 256].

(** The raw bytes of a secret. *)
Definition raw_bytes (s : str) : bytes := map (fun c => chr (Z.of_N c)) s.

(** seed = 4-byte big-endian session_id || secret || version || seq_no *)
Definition seed (h : TACACSHeader.t) (s : str) : bytes :=
  be4 (TACACSHeader.session_id h) ++ raw_bytes s
    ++ [chr (TACACSHeader.version h)] ++ [chr (TACACSHeader.seq_no h)].

(** hash_1 = MD5(seed); hash_{i+1} = MD5(seed || hash_i).
    There is no hash_0. *)
Fixpoint hash (seed : bytes) (i : nat) : bytes :=
  match i with
  | O => []
  | S j =>
      match j with
      | O => hashlib.md5 seed
      | S _ => hashlib.md5 (seed ++ hash seed j)
      end
  end.

(** hash_1 || hash_2 || ... || hash_n *)
Definition pad (seed : bytes) (n : nat) : bytes :=
  concat (map (hash seed) (seq 1 n)).

(** The number of 16-byte hashes that cover [len] bytes. *)
Definition rounds (len : nat) : nat := (len + 15) / 16.

(** The pad, truncated to [len] bytes. *)
Definition pseudo_pad (seed : bytes) (len : nat) : bytes :=
  firstn len (pad seed (rounds len)).

(** Byte-for-byte XOR: pad byte [i] against body byte [i]. *)
Definition xor_bytes (body pad : bytes) : bytes :=
  map (fun xp => chr (Z.lxor (ord (fst xp)) (ord (snd xp))))
      (combine body pad).

End Spec.

(** ** Values of the specification's concrete scenarios *)

(** [b"hello"] *)
Definition hello : bytes := [x68; x65; x6c; x6c; x6f].

(** ["testkey"] *)
Definition testkey : str := [116; 101; 115; 116; 107; 101; 121]%N.

(** version 0xC0, session_id 1, seq_no 1, for a 5-byte authentication
    body. *)
Definition header_1 : TACACSHeader.t := TACACSHeader.mk 0xC0 1 1 5 1 0.

(** Tactics that decide the range predicates on concrete values. *)

Ltac fields_in_range :=
  unfold in_range, pad_fields_in_range, uint8, uint32; simpl; lia.

Ltac byte_string :=
  unfold latin1; repeat (apply Forall_cons; [lia|]); apply Forall_nil.

(** * Properties *)

(** ** Bytes and integers *)

Lemma ord_range (b : byte) : 0 <= ord b <= 255.
Proof.
  unfold ord. pose proof (Byte.to_N_bounded b). lia.
Qed.

Lemma chr_ord (b : byte) : chr (ord b) = b.
Proof.
  unfold chr. rewrite Z.mod_small by (pose proof (ord_range b); lia).
  unfold ord. rewrite N2Z.id, Byte.of_to_N. reflexivity.
Qed.

Lemma ord_chr (z : Z) : ord (chr z) = z mod 256.
Proof.
  unfold chr, ord.
  pose proof (Z.mod_pos_bound z 256 eq_refl) as Hb.
  destruct (Byte.of_N (Z.to_N (z mod 256))) as [b|] eqn:E.
  - apply Byte.to_of_N in E. rewrite E. lia.
  - apply Byte.of_N_None_iff in E. lia.
Qed.

Lemma ord_chr_small (z : Z) : uint8 z -> ord (chr z) = z.
Proof.
  unfold uint8. intros Hz. rewrite ord_chr. apply Z.mod_small. lia.
Qed.

Lemma ord_inj (a b : byte) : ord a = ord b -> a = b.
Proof.
  intros E. rewrite <- (chr_ord a), <- (chr_ord b), E. reflexivity.
Qed.

Lemma of_N_chr (c : N) : (c <= 255)%N -> Byte.of_N c = Some (chr (Z.of_N c)).
Proof.
  intros Hc. destruct (Byte.of_N c) as [b|] eqn:E.
  - f_equal. apply ord_inj. rewrite ord_chr_small by (unfold uint8; lia).
    unfold ord. apply Byte.to_of_N in E. now rewrite E.
  - apply Byte.of_N_None_iff in E. lia.
Qed.

(** ** [struct.pack] and [struct.unpack] *)

Lemma pack_B_ok (v : Z) : uint8 v -> struct.pack_B v = Ok [chr v].
Proof.
  unfold uint8, struct.pack_B. intros [Hlo Hhi].
  apply Z.leb_le in Hlo, Hhi. now rewrite Hlo, Hhi.
Qed.

Lemma pack_B_raises (v : Z) :
  ~ uint8 v -> struct.pack_B v = Raise struct_error.
Proof.
  unfold uint8, struct.pack_B. intros Hv.
  destruct (0 <=? v) eqn:E1; destruct (v <=? 255) eqn:E2; try reflexivity.
  apply Z.leb_le in E1, E2. lia.
Qed.

Lemma pack_Bs_ok (vs : list Z) :
  Forall uint8 vs -> struct.pack_Bs vs = Ok (map chr vs).
Proof.
  induction 1 as [|v vs Hv _ IH]; simpl.
  - reflexivity.
  - rewrite (pack_B_ok v Hv), IH. reflexivity.
Qed.

Lemma pack_I_ok (v : Z) :
  uint32 v ->
  struct.pack_I v =
    Ok [chr (Z.shiftr v 24); chr (Z.shiftr v 16); chr (Z.shiftr v 8); chr v].
Proof.
  unfold uint32, struct.pack_I. intros [Hlo Hhi].
  apply Z.leb_le in Hlo, Hhi. now rewrite Hlo, Hhi.
Qed.

Lemma pack_I_raises (v : Z) :
  ~ uint32 v -> struct.pack_I v = Raise struct_error.
Proof.
  unfold uint32, struct.pack_I. intros Hv.
  destruct (0 <=? v) eqn:E1; destruct (v <=? 4294967295) eqn:E2;
    try reflexivity.
  apply Z.leb_le in E1, E2. lia.
Qed.

(** Joining a high part with a low part that fits below it. *)
Lemma lor_shiftl_low (hi lo n : Z) :
  0 <= n -> 0 <= lo < 2 ^ n -> Z.lor (Z.shiftl hi n) lo = hi * 2 ^ n + lo.
Proof.
  intros Hn Hlo.
  rewrite <- Z.lxor_lor, <- Z.add_nocarry_lxor, Z.shiftl_mul_pow2; trivial.
  all: apply Z.bits_inj'; intros i Hi; rewrite Z.land_spec, Z.bits_0.
  all: destruct (Z.lt_ge_cases i n) as [Hlt|Hge].
  all: try (rewrite Z.shiftl_spec_low by lia; reflexivity).
  all: rewrite <- (Z.mod_small lo (2 ^ n)) by lia.
  all: rewrite Z.mod_pow2_bits_high by lia; apply andb_false_r.
Qed.

Lemma be32_value (a b c d : byte) :
  struct.be32 a b c d =
    ord a * 2 ^ 24 + ord b * 2 ^ 16 + ord c * 2 ^ 8 + ord d.
Proof.
  unfold struct.be32.
  pose proof (ord_range a). pose proof (ord_range b).
  pose proof (ord_range c). pose proof (ord_range d).
  rewrite (lor_shiftl_low (ord c) (ord d) 8) by lia.
  rewrite (lor_shiftl_low (ord b) _ 16) by lia.
  rewrite (lor_shiftl_low (ord a) _ 24) by lia.
  lia.
Qed.

(** The four bytes written by ['!I'] are the base-256 digits of the
    value, most significant first. *)
Lemma be_digits (v : Z) :
  uint32 v ->
  map ord [chr (Z.shiftr v 24); chr (Z.shiftr v 16); chr (Z.shiftr v 8); chr v]
  = [v / 2 ^ 24; v / 2 ^ 16 mod 256; v / 2 ^ 8 mod 256; v mod 256].
Proof.
  unfold uint32. intros Hv. simpl map.
  rewrite !ord_chr, !Z.shiftr_div_pow2 by lia.
  rewrite (Z.mod_small (v / 2 ^ 24)); [reflexivity|].
  change (2 ^ 24) with 16777216.
  split; [apply Z.div_pos; lia | apply Z.div_lt_upper_bound; lia].
Qed.

Lemma be32_pack_I (v : Z) :
  uint32 v ->
  struct.be32 (chr (Z.shiftr v 24)) (chr (Z.shiftr v 16))
              (chr (Z.shiftr v 8)) (chr v) = v.
Proof.
  intros Hv. rewrite be32_value.
  pose proof (be_digits v Hv) as E. simpl map in E.
  injection E as -> -> -> ->.
  change (2 ^ 24) with 16777216. change (2 ^ 16) with 65536.
  change (2 ^ 8) with 256.
  unfold uint32 in Hv. Z.div_mod_to_equations. lia.
Qed.

(** ** Header codec *)

Lemma packed_ok (h : TACACSHeader.t) :
  in_range h ->
  TACACSHeader.packed h =
    Ok [chr (TACACSHeader.version h); chr (TACACSHeader.type h);
        chr (TACACSHeader.seq_no h); chr (TACACSHeader.flags h);
        chr (Z.shiftr (TACACSHeader.session_id h) 24);
        chr (Z.shiftr (TACACSHeader.session_id h) 16);
        chr (Z.shiftr (TACACSHeader.session_id h) 8);
        chr (TACACSHeader.session_id h);
        chr (Z.shiftr (TACACSHeader.length h) 24);
        chr (Z.shiftr (TACACSHeader.length h) 16);
        chr (Z.shiftr (TACACSHeader.length h) 8);
        chr (TACACSHeader.length h)].
Proof.
  intros (Hv & Ht & Hs & Hf & Hsid & Hlen).
  unfold TACACSHeader.packed, struct.pack_BBBB.
  rewrite pack_Bs_ok
    by (repeat (apply Forall_cons; [assumption|]); apply Forall_nil).
  rewrite (pack_I_ok _ Hsid), (pack_I_ok _ Hlen). reflexivity.
Qed.

(** [packed] returns only for headers whose fields are in range: outside
    that range [struct.pack] raises. *)
Lemma packed_returns_iff (h : TACACSHeader.t) :
  (exists bs, TACACSHeader.packed h = Ok bs) <-> in_range h.
Proof.
  split.
  - intros [bs E]. destruct h as [v t sid len s f].
    unfold TACACSHeader.packed, struct.pack_BBBB, struct.pack_Bs, struct.pack_B,
      struct.pack_I, in_range, uint8, uint32 in *.
    cbn [TACACSHeader.version TACACSHeader.type TACACSHeader.seq_no
         TACACSHeader.flags TACACSHeader.session_id TACACSHeader.length] in *.
    repeat match type of E with
           | context [if ?c then _ else _] =>
               let C := fresh "C" in
               destruct c eqn:C; cbn [bind] in E; [|discriminate E]
           end.
    repeat match goal with
           | C : (_ && _)%bool = true |- _ =>
               apply andb_prop in C; destruct C as [?C ?C]
           | C : (_ <=? _) = true |- _ => apply Z.leb_le in C
           end.
    lia.
  - intros Hr. rewrite (packed_ok h Hr). eexists. reflexivity.
Qed.

(** C5: for a header whose fields are in their natural ranges, [packed]
    returns exactly 12 bytes: version, type, seq_no, flags, then the four
    base-256 digits of session_id, most significant first, then those of
    length. *)
Theorem packed_layout (h : TACACSHeader.t) :
  in_range h ->
  exists bs,
    TACACSHeader.packed h = Ok bs /\
    length bs = 12%nat /\
    map ord bs =
      [ TACACSHeader.version h; TACACSHeader.type h;
        TACACSHeader.seq_no h; TACACSHeader.flags h;
        TACACSHeader.session_id h / 2 ^ 24;
        TACACSHeader.session_id h / 2 ^ 16 mod 256;
        TACACSHeader.session_id h / 2 ^ 8 mod 256;
        TACACSHeader.session_id h mod 256;
        TACACSHeader.length h / 2 ^ 24;
        TACACSHeader.length h / 2 ^ 16 mod 256;
        TACACSHeader.length h / 2 ^ 8 mod 256;
        TACACSHeader.length h mod 256 ].
Proof.
  intros Hr. rewrite (packed_ok h Hr).
  destruct Hr as (Hv & Ht & Hs & Hf & Hsid & Hlen).
  eexists. split; [reflexivity|]. split; [reflexivity|].
  pose proof (be_digits _ Hsid) as Esid. pose proof (be_digits _ Hlen) as Elen.
  cbn [map] in *.
  injection Esid as -> -> -> ->. injection Elen as -> -> -> ->.
  rewrite !ord_chr_small by assumption. reflexivity.
Qed.

Lemma packed_layout_witness :
  exists bs,
    TACACSHeader.packed (TACACSHeader.mk 0xC1 1 305419896 0 1 0) = Ok bs /\
    map ord bs = [0xC1; 1; 1; 0; 0x12; 0x34; 0x56; 0x78; 0; 0; 0; 0].
Proof.
  destruct (packed_layout (TACACSHeader.mk 0xC1 1 305419896 0 1 0))
    as (bs & E & _ & L).
  - unfold in_range, uint8, uint32; simpl; lia.
  - exists bs. split; [exact E | exact L].
Defined.

(** C4: packing a header whose fields are in their natural ranges and
    unpacking the 12 bytes gives back the same header, field by field. *)
Theorem unpacked_packed (h : TACACSHeader.t) :
  in_range h ->
  exists bs,
    TACACSHeader.packed h = Ok bs /\ TACACSHeader.unpacked bs = Ok h.
Proof.
  intros Hr. rewrite (packed_ok h Hr).
  destruct Hr as (Hv & Ht & Hs & Hf & Hsid & Hlen).
  eexists. split; [reflexivity|].
  unfold TACACSHeader.unpacked, six.BytesIO, six.read.
  cbn [firstn skipn struct.unpack_BBBB struct.unpack_II bind].
  rewrite !be32_pack_I, !ord_chr_small by assumption.
  destruct h; reflexivity.
Qed.

Lemma unpacked_packed_witness :
  exists bs,
    TACACSHeader.packed (TACACSHeader.mk 0xC1 1 305419896 0 1 0) = Ok bs /\
    TACACSHeader.unpacked bs = Ok (TACACSHeader.mk 0xC1 1 305419896 0 1 0).
Proof.
  apply (unpacked_packed (TACACSHeader.mk 0xC1 1 305419896 0 1 0)).
  unfold in_range, uint8, uint32; simpl; lia.
Defined.

(** Concrete scenario 3 of the specification, by evaluation. *)
Example scenario_3 :
  let h := TACACSHeader.mk 0xC1 1 305419896 0 1 0 in
  (bs <- TACACSHeader.packed h ;; TACACSHeader.unpacked bs) = Ok h /\
  TACACSHeader.version_max h = 12 /\ TACACSHeader.version_min h = 1.
Proof. repeat split. Qed.

(** C8: decoding reads the first 12 bytes only: whatever follows a
    12-byte prefix, decoding succeeds with the header of the prefix. *)
Theorem unpacked_prefix (P S1 S2 : bytes) :
  length P = 12%nat ->
  exists h,
    TACACSHeader.unpacked P = Ok h /\
    TACACSHeader.unpacked (P ++ S1) = Ok h /\
    TACACSHeader.unpacked (P ++ S2) = Ok h.
Proof.
  intros HP.
  do 12 (destruct P as [|? P]; [discriminate HP|]).
  destruct P; [|discriminate HP].
  eexists. repeat split.
Qed.

Lemma unpacked_prefix_witness :
  exists h,
    TACACSHeader.unpacked (repeat x01 12) = Ok h /\
    TACACSHeader.unpacked (repeat x01 12 ++ [x02]) = Ok h /\
    TACACSHeader.unpacked (repeat x01 12 ++ [x03; x04]) = Ok h.
Proof.
  apply (unpacked_prefix (repeat x01 12) [x02] [x03; x04]). reflexivity.
Defined.

(** The outcome of decoding, by the number of bytes supplied. *)
Lemma unpacked_cases (raw : bytes) :
  (raw = [] /\ TACACSHeader.unpacked raw = Raise ValueError) \/
  ((1 <= length raw < 12)%nat /\
   TACACSHeader.unpacked raw = Raise struct_error) \/
  ((12 <= length raw)%nat /\ exists h, TACACSHeader.unpacked raw = Ok h).
Proof.
  destruct raw as [|b0 raw]; [left; split; reflexivity|right].
  do 11 (destruct raw as [|? raw];
         [left; split; [simpl; lia | reflexivity]|]).
  right. split; [simpl; lia|]. eexists. reflexivity.
Qed.

(** C3 (counterexample): a one-byte input has fewer than 4 bytes, and
    decoding it does not raise [ValueError]. *)
Lemma unpacked_short_not_always_ValueError :
  ~ (forall raw : bytes,
       (length raw < 4)%nat -> TACACSHeader.unpacked raw = Raise ValueError).
Proof.
  intros H. specialize (H [x01]). simpl in H.
  assert (E : Raise struct_error = Raise ValueError :> result TACACSHeader.t)
    by (apply H; lia).
  discriminate E.
Qed.

(** C3 (amended): decoding an input of fewer than 4 bytes never returns a
    header; it raises [ValueError] when the input is empty and
    [struct.error] when it has 1 to 3 bytes. *)
Theorem unpacked_short (raw : bytes) :
  (length raw < 4)%nat ->
  TACACSHeader.unpacked raw =
    Raise (match raw with [] => ValueError | _ :: _ => struct_error end).
Proof.
  intros Hlen.
  destruct (unpacked_cases raw) as [[-> E]|[[Hl E]|[Hl _]]].
  - exact E.
  - destruct raw; [simpl in Hl; lia | exact E].
  - lia.
Qed.

Lemma unpacked_short_witness :
  TACACSHeader.unpacked [] = Raise ValueError /\
  TACACSHeader.unpacked [xc0; x01; x01] = Raise struct_error.
Proof.
  split.
  - apply (unpacked_short []). simpl. lia.
  - apply (unpacked_short [xc0; x01; x01]). simpl. lia.
Defined.

(** C9: an input of at least 4 but fewer than 12 bytes makes decoding
    raise [struct.error], not [ValueError], and decoding returns a header
    exactly when at least 12 bytes are supplied. *)
Theorem unpacked_needs_12 (raw : bytes) :
  ((4 <= length raw < 12)%nat ->
   TACACSHeader.unpacked raw = Raise struct_error) /\
  ((exists h, TACACSHeader.unpacked raw = Ok h) <-> (12 <= length raw)%nat).
Proof.
  destruct (unpacked_cases raw) as [[-> E]|[[Hl E]|[Hl E]]].
  - split; [simpl; lia|]. split; [|simpl; lia].
    intros [h Eh]. rewrite E in Eh. discriminate Eh.
  - split; [intros _; exact E|]. split; [|lia].
    intros [h Eh]. rewrite E in Eh. discriminate Eh.
  - split; [lia|]. split; [intros _; exact Hl | intros _; exact E].
Qed.

Lemma unpacked_needs_12_witness :
  TACACSHeader.unpacked [xc0; x01; x01; x00; x00] = Raise struct_error.
Proof.
  apply (proj1 (unpacked_needs_12 [xc0; x01; x01; x00; x00])). simpl. lia.
Defined.

(** ** The hash chain and the pad *)

Lemma md5_digest_size (data : bytes) :
  length (hashlib.md5 data) = hashlib.digest_size.
Proof.
  unfold hashlib.md5.
  destruct (hashlib.blocks _ _ _) as [[[a b] c] d]. reflexivity.
Qed.

#[local] Opaque hashlib.md5.

Lemma hash_succ (seed : bytes) (i : nat) :
  (1 <= i)%nat ->
  Spec.hash seed (S i) = hashlib.md5 (seed ++ Spec.hash seed i).
Proof.
  destruct i; [lia | reflexivity].
Qed.

Lemma hash_length (seed : bytes) (i : nat) :
  (1 <= i)%nat -> length (Spec.hash seed i) = 16%nat.
Proof.
  destruct i as [|[|j]]; [lia | |]; intros _; apply md5_digest_size.
Qed.

Lemma pad_succ (seed : bytes) (n : nat) :
  Spec.pad seed (S n) = Spec.pad seed n ++ Spec.hash seed (S n).
Proof.
  unfold Spec.pad. rewrite seq_S, map_app, concat_app. simpl.
  now rewrite app_nil_r.
Qed.

Lemma pad_length (seed : bytes) (n : nat) :
  length (Spec.pad seed n) = (16 * n)%nat.
Proof.
  induction n as [|n IH]; [reflexivity|].
  rewrite pad_succ, length_app, IH, hash_length; lia.
Qed.

Lemma pad_prefix (seed : bytes) (n m : nat) :
  (n <= m)%nat -> exists rest, Spec.pad seed m = Spec.pad seed n ++ rest.
Proof.
  induction 1 as [|m _ [rest IH]].
  - exists []. now rewrite app_nil_r.
  - exists (rest ++ Spec.hash seed (S m)).
    now rewrite pad_succ, IH, app_assoc.
Qed.

Lemma rounds_cover (len : nat) : (len <= 16 * Spec.rounds len)%nat.
Proof.
  unfold Spec.rounds.
  pose proof (Nat.div_mod_eq (len + 15) 16).
  pose proof (Nat.mod_upper_bound (len + 15) 16). lia.
Qed.

Lemma rounds_least (len n : nat) :
  (len <= 16 * n)%nat -> (Spec.rounds len <= n)%nat.
Proof.
  intros H. unfold Spec.rounds.
  apply Nat.lt_succ_r, Nat.Div0.div_lt_upper_bound. lia.
Qed.

(** Truncating [hash_1 || ... || hash_n] gives the same pad for every
    number [n] of hashes that covers the requested length. *)
Lemma pseudo_pad_any_rounds (seed : bytes) (len n : nat) :
  (len <= 16 * n)%nat ->
  firstn len (Spec.pad seed n) = Spec.pseudo_pad seed len.
Proof.
  intros H. unfold Spec.pseudo_pad.
  destruct (pad_prefix seed _ _ (rounds_least len n H)) as [rest ->].
  pose proof (rounds_cover len) as Hc.
  rewrite firstn_app, pad_length.
  replace (len - 16 * Spec.rounds len)%nat with 0%nat by lia.
  now rewrite firstn_O, app_nil_r.
Qed.

Lemma pseudo_pad_length (seed : bytes) (len : nat) :
  length (Spec.pseudo_pad seed len) = len.
Proof.
  unfold Spec.pseudo_pad. pose proof (rounds_cover len).
  rewrite length_firstn, pad_length. lia.
Qed.

(** The pad loop, entered with [k] hashes accumulated, leaves with the
    least number of hashes that covers the body, provided the iteration
    budget reaches that far. *)
Lemma pad_loop_spec (seed : bytes) (len fuel : nat) :
  forall k : nat,
    (1 <= k)%nat -> (16 * k < len)%nat -> (len <= 16 * (k + fuel))%nat ->
    exists m : nat,
      pad_loop fuel seed (Spec.hash seed k) (Spec.pad seed k) len
        = Ok (Spec.pad seed m) /\
      (len <= 16 * m < len + 16)%nat.
Proof.
  induction fuel as [|fuel IH]; intros k Hk Hlt Hfuel; [lia|].
  cbn [pad_loop].
  rewrite <- (hash_succ seed k Hk), <- pad_succ.
  destruct (len <=? length (Spec.pad seed (S k)))%nat eqn:E.
  - apply Nat.leb_le in E. rewrite pad_length in E.
    exists (S k). split; [reflexivity | lia].
  - apply Nat.leb_gt in E. rewrite pad_length in E.
    apply IH; lia.
Qed.

(** ** The XOR loop *)

Lemma xor_loop_spec (xs : list Z) :
  forall pad acc : list Z,
    (length xs <= length pad)%nat ->
    xor_loop xs pad acc =
      Ok (acc ++ map (fun xp => Z.lxor (fst xp) (snd xp)) (combine xs pad)).
Proof.
  induction xs as [|x xs IH]; intros pad acc Hlen; cbn [xor_loop combine map].
  - now rewrite app_nil_r.
  - destruct pad as [|p pad]; [simpl in Hlen; lia|].
    rewrite IH by (simpl in Hlen; lia).
    cbn [combine map fst snd]. now rewrite <- app_assoc.
Qed.

(** Popping from an exhausted pad raises. *)
Lemma xor_loop_short_pad (xs : list Z) :
  forall pad acc : list Z,
    (length pad < length xs)%nat -> xor_loop xs pad acc = Raise IndexError.
Proof.
  induction xs as [|x xs IH]; intros pad acc Hlen; [simpl in Hlen; lia|].
  destruct pad as [|p pad]; [reflexivity|].
  cbn [xor_loop]. apply IH. simpl in Hlen. lia.
Qed.

Lemma lxor_uint8 (a b : Z) : uint8 a -> uint8 b -> uint8 (Z.lxor a b).
Proof.
  unfold uint8. intros Ha Hb.
  assert (E : Z.lxor a b = Z.lxor a b mod 2 ^ 8).
  { apply Z.bits_inj'. intros i Hi.
    rewrite Z.testbit_mod_pow2 by lia.
    destruct (i <? 8) eqn:Ei; [reflexivity|]. apply Z.ltb_ge in Ei.
    rewrite Z.lxor_spec.
    rewrite <- (Z.mod_small a (2 ^ 8)), <- (Z.mod_small b (2 ^ 8)) by lia.
    rewrite !Z.mod_pow2_bits_high by lia. reflexivity. }
  pose proof (Z.mod_pos_bound (Z.lxor a b) (2 ^ 8) eq_refl). lia.
Qed.

Lemma combine_map_ord (xs ps : bytes) :
  combine (map ord xs) (map ord ps) =
    map (fun xp => (ord (fst xp), ord (snd xp))) (combine xs ps).
Proof.
  revert ps. induction xs as [|x xs IH]; intros [|p ps]; simpl; trivial.
  now rewrite IH.
Qed.

(** The second half of [crypt]: unpack, XOR against the pad, repack. *)
Lemma xor_pack (body pad : bytes) :
  (length body <= length pad)%nat ->
  (packet_body <- xor_loop (struct.unpack_Bs body) (struct.unpack_Bs pad) [] ;;
   struct.pack_Bs packet_body) = Ok (Spec.xor_bytes body pad).
Proof.
  intros Hlen. unfold struct.unpack_Bs.
  rewrite xor_loop_spec by (now rewrite !length_map).
  cbn [bind app]. rewrite combine_map_ord, map_map. cbn [fst snd].
  rewrite pack_Bs_ok.
  - unfold Spec.xor_bytes. now rewrite map_map.
  - apply Forall_forall. intros z Hz. apply in_map_iff in Hz.
    destruct Hz as [[x p] [<- _]]. cbn [fst snd].
    apply lxor_uint8; apply ord_range.
Qed.

(** ** [crypt]: the pad it builds *)

Lemma pad_1 (seed : bytes) : Spec.pad seed 1 = hashlib.md5 seed.
Proof. unfold Spec.pad. simpl. apply app_nil_r. Qed.

Lemma rounds_unique (len m : nat) :
  (len <= 16 * m < len + 16)%nat -> m = Spec.rounds len.
Proof.
  intros H. pose proof (rounds_cover len). pose proof (rounds_least len m).
  lia.
Qed.

(** From the first hash to the end of the pad loop, for any seed. *)
Lemma pad_phase (seed : bytes) (len fuel : nat) :
  (len <= 16 * S fuel)%nat ->
  (if (length (hashlib.md5 seed) <? len)%nat
   then pad_loop fuel seed (hashlib.md5 seed) (hashlib.md5 seed) len
   else Ok (hashlib.md5 seed))
  = Ok (Spec.pad seed (Nat.max 1 (Spec.rounds len))).
Proof.
  intros Hfuel. rewrite md5_digest_size. unfold hashlib.digest_size.
  pose proof (rounds_cover len) as Hc.
  destruct (16 <? len)%nat eqn:E.
  - apply Nat.ltb_lt in E.
    destruct (pad_loop_spec seed len fuel 1) as (m & Em & Hm); try lia.
    change (Spec.hash seed 1) with (hashlib.md5 seed) in Em.
    rewrite pad_1 in Em. rewrite Em.
    rewrite (rounds_unique len m Hm). f_equal. f_equal. lia.
  - apply Nat.ltb_ge in E. pose proof (rounds_least len 1).
    destruct (Spec.rounds len) as [|[|r]] eqn:Er; try lia;
      cbn [Nat.max]; now rewrite pad_1.
Qed.

Lemma chr_mod (z : Z) : chr (z mod 256) = chr z.
Proof.
  apply ord_inj. rewrite !ord_chr. apply Z.mod_mod. lia.
Qed.

Lemma pack_I_be4 (v : Z) : uint32 v -> struct.pack_I v = Ok (Spec.be4 v).
Proof.
  intros Hv. rewrite (pack_I_ok v Hv). f_equal.
  pose proof (f_equal (map chr) (be_digits v Hv)) as E.
  rewrite map_map in E. cbn [map] in E. rewrite !chr_ord in E. exact E.
Qed.

Lemma encode_latin1_ok (s : str) :
  latin1 s -> six.encode_latin1 s = Ok (Spec.raw_bytes s).
Proof.
  induction 1 as [|c s Hc _ IH]; [reflexivity|].
  cbn [six.encode_latin1]. rewrite (of_N_chr c Hc), IH. reflexivity.
Qed.

Lemma encode_latin1_returns (s : str) (bs : bytes) :
  six.encode_latin1 s = Ok bs -> latin1 s.
Proof.
  revert bs. induction s as [|c s IH]; intros bs E; [constructor|].
  cbn [six.encode_latin1] in E.
  destruct (Byte.of_N c) as [x|] eqn:Ec; [|discriminate E].
  destruct (six.encode_latin1 s) as [xs| |]; try discriminate E.
  constructor; [|apply (IH xs); reflexivity].
  apply Byte.to_of_N in Ec. subst c. apply Byte.to_N_bounded.
Qed.

(** [crypt] is its pad phase followed by the XOR phase. *)
Lemma crypt_fuel_pad (fuel : nat) (h : TACACSHeader.t) (body : bytes)
    (s : option str) :
  crypt_fuel fuel h body s =
    (pad <- crypt_pad fuel h (length body) s ;;
     packet_body <- xor_loop (struct.unpack_Bs body)
                      (struct.unpack_Bs (firstn (length body) pad)) [] ;;
     struct.pack_Bs packet_body).
Proof.
  unfold crypt_fuel, crypt_pad.
  destruct (struct.pack_I _); cbn [bind]; trivial.
  destruct (six.b s); cbn [bind]; trivial.
  destruct (struct.pack_B (TACACSHeader.version h)); cbn [bind]; trivial.
  destruct (struct.pack_B (TACACSHeader.seq_no h)); cbn [bind]; trivial.
Qed.

(** With fields in range and a byte-string secret, the pad phase returns
    the chained hashes of the specification's seed. *)
Lemma crypt_pad_ok (fuel len : nat) (h : TACACSHeader.t) (s : str) :
  pad_fields_in_range h -> latin1 s -> (len <= 16 * S fuel)%nat ->
  crypt_pad fuel h len (Some s) =
    Ok (Spec.pad (Spec.seed h s) (Nat.max 1 (Spec.rounds len))).
Proof.
  intros (Hsid & Hv & Hq) Hs Hfuel. unfold crypt_pad, six.b.
  rewrite (pack_I_be4 _ Hsid), (encode_latin1_ok s Hs),
    (pack_B_ok _ Hv), (pack_B_ok _ Hq).
  cbn [bind].
  replace (((Spec.be4 (TACACSHeader.session_id h) ++ Spec.raw_bytes s)
              ++ [chr (TACACSHeader.version h)])
             ++ [chr (TACACSHeader.seq_no h)])
    with (Spec.seed h s) by (unfold Spec.seed; now rewrite <- !app_assoc).
  apply pad_phase, Hfuel.
Qed.

Lemma crypt_fuel_ok (fuel : nat) (h : TACACSHeader.t) (body : bytes)
    (s : str) :
  pad_fields_in_range h -> latin1 s -> (length body <= 16 * S fuel)%nat ->
  crypt_fuel fuel h body (Some s) =
    Ok (Spec.xor_bytes body (Spec.pseudo_pad (Spec.seed h s) (length body))).
Proof.
  intros Hh Hs Hfuel.
  rewrite crypt_fuel_pad, (crypt_pad_ok fuel _ h s Hh Hs Hfuel). cbn [bind].
  rewrite pseudo_pad_any_rounds
    by (pose proof (rounds_cover (length body)); lia).
  apply xor_pack. now rewrite pseudo_pad_length.
Qed.

(** The iteration budget of the model is never the reason for an
    outcome: every budget that covers the body gives the outcome of
    [crypt], whatever the header and the secret. *)
Lemma crypt_fuel_enough (fuel : nat) (h : TACACSHeader.t) (body : bytes)
    (s : option str) :
  (length body <= 16 * S fuel)%nat ->
  crypt_fuel fuel h body s = crypt h body s.
Proof.
  intros Hfuel. unfold crypt, crypt_fuel.
  destruct (struct.pack_I _); cbn [bind]; trivial.
  destruct (six.b s); cbn [bind]; trivial.
  destruct (struct.pack_B (TACACSHeader.version h)); cbn [bind]; trivial.
  destruct (struct.pack_B (TACACSHeader.seq_no h)); cbn [bind]; trivial.
  rewrite !pad_phase by lia. reflexivity.
Qed.

(** The library calls made by [crypt] contain no loop of the model. *)
Lemma pack_B_total (v : Z) : struct.pack_B v <> OutOfFuel.
Proof.
  unfold struct.pack_B. destruct ((0 <=? v) && (v <=? 255)); discriminate.
Qed.

Lemma pack_I_total (v : Z) : struct.pack_I v <> OutOfFuel.
Proof.
  unfold struct.pack_I.
  destruct ((0 <=? v) && (v <=? 4294967295)); discriminate.
Qed.

Lemma six_b_total (s : option str) : six.b s <> OutOfFuel.
Proof.
  destruct s as [s|]; [|discriminate]. cbn [six.b].
  induction s as [|c s IH]; [discriminate|]. cbn [six.encode_latin1].
  destruct (Byte.of_N c); [|discriminate].
  destruct (six.encode_latin1 s); [discriminate|discriminate|].
  destruct IH. reflexivity.
Qed.

(** [crypt] terminates on every input: it returns or raises, and the
    iteration budget of the model is never exhausted. *)
Lemma crypt_terminates (h : TACACSHeader.t) (body : bytes) (s : option str) :
  crypt h body s <> OutOfFuel.
Proof.
  unfold crypt, crypt_fuel.
  destruct (struct.pack_I _) eqn:E1; cbn [bind];
    [|discriminate|destruct (pack_I_total _ E1)].
  destruct (six.b s) eqn:E2; cbn [bind];
    [|discriminate|destruct (six_b_total _ E2)].
  destruct (struct.pack_B (TACACSHeader.version h)) eqn:E3; cbn [bind];
    [|discriminate|destruct (pack_B_total _ E3)].
  destruct (struct.pack_B (TACACSHeader.seq_no h)) eqn:E4; cbn [bind];
    [|discriminate|destruct (pack_B_total _ E4)].
  rewrite pad_phase by lia. cbn [bind].
  rewrite xor_pack; [discriminate|].
  pose proof (rounds_cover (length body)).
  rewrite length_firstn, pad_length. lia.
Qed.

Lemma crypt_ok (h : TACACSHeader.t) (body : bytes) (s : str) :
  pad_fields_in_range h -> latin1 s ->
  crypt h body (Some s) =
    Ok (Spec.xor_bytes body (Spec.pseudo_pad (Spec.seed h s) (length body))).
Proof.
  intros Hh Hs. apply crypt_fuel_ok; trivial. lia.
Qed.

(** [crypt] never runs out of budget, and it returns exactly when the
    fields it packs are in range and the secret is a byte string. *)
Lemma crypt_returns_iff (h : TACACSHeader.t) (body : bytes) (s : str) :
  (exists c, crypt h body (Some s) = Ok c) <->
  pad_fields_in_range h /\ latin1 s.
Proof.
  split.
  - intros [c E]. unfold crypt, crypt_fuel, six.b in E.
    destruct (Z_le_dec 0 (TACACSHeader.session_id h)) as [H1|H1];
    [destruct (Z_le_dec (TACACSHeader.session_id h) 4294967295) as [H2|H2]|].
    2,3: rewrite pack_I_raises in E by (unfold uint32; lia); discriminate E.
    rewrite pack_I_ok in E by (unfold uint32; lia). cbn [bind] in E.
    assert (Hs : latin1 s).
    { destruct (six.encode_latin1 s) as [key| |] eqn:Ek; try discriminate E.
      apply (encode_latin1_returns s key Ek). }
    rewrite (encode_latin1_ok s Hs) in E. cbn [bind] in E.
    assert (Hv : uint8 (TACACSHeader.version h)).
    { destruct (Z_le_dec 0 (TACACSHeader.version h));
        [destruct (Z_le_dec (TACACSHeader.version h) 255)|];
        try (unfold uint8; lia).
      all: rewrite pack_B_raises in E by (unfold uint8; lia); discriminate E. }
    rewrite (pack_B_ok _ Hv) in E. cbn [bind] in E.
    assert (Hq : uint8 (TACACSHeader.seq_no h)).
    { destruct (Z_le_dec 0 (TACACSHeader.seq_no h));
        [destruct (Z_le_dec (TACACSHeader.seq_no h) 255)|];
        try (unfold uint8; lia).
      all: rewrite pack_B_raises in E by (unfold uint8; lia); discriminate E. }
    split; [split; [unfold uint32; lia | split; assumption] | assumption].
  - intros [Hh Hs]. rewrite (crypt_ok h body s Hh Hs). eexists. reflexivity.
Qed.

(** ** [crypt]: the XOR against the pad *)

Lemma xor_bytes_length (body pad : bytes) :
  (length body <= length pad)%nat ->
  length (Spec.xor_bytes body pad) = length body.
Proof.
  intros H. unfold Spec.xor_bytes. rewrite length_map, length_combine. lia.
Qed.

Lemma xor_bytes_nth (body : bytes) :
  forall (pad : bytes) (i : nat),
    (length body <= length pad)%nat -> (i < length body)%nat ->
    ord (nth i (Spec.xor_bytes body pad) x00) =
      Z.lxor (ord (nth i body x00)) (ord (nth i pad x00)).
Proof.
  induction body as [|x body IH]; intros [|p pad] i Hlen Hi;
    simpl in Hlen, Hi; try lia.
  destruct i as [|i].
  - cbn [Spec.xor_bytes combine map nth fst snd].
    apply ord_chr_small, lxor_uint8; apply ord_range.
  - cbn [nth]. rewrite <- IH by lia. reflexivity.
Qed.

Lemma xor_bytes_involutive (body : bytes) :
  forall pad : bytes,
    (length body <= length pad)%nat ->
    Spec.xor_bytes (Spec.xor_bytes body pad) pad = body.
Proof.
  induction body as [|x body IH]; intros [|p pad] Hlen;
    simpl in Hlen; try lia; trivial.
  unfold Spec.xor_bytes in *. cbn [combine map fst snd]. f_equal.
  - rewrite ord_chr_small by (apply lxor_uint8; apply ord_range).
    rewrite Z.lxor_assoc, Z.lxor_nilpotent, Z.lxor_0_r. apply chr_ord.
  - apply IH. lia.
Qed.

Lemma pad_3 (seed : bytes) :
  Spec.pad seed 3 =
    hashlib.md5 seed
      ++ hashlib.md5 (seed ++ hashlib.md5 seed)
      ++ hashlib.md5 (seed ++ hashlib.md5 (seed ++ hashlib.md5 seed)).
Proof.
  unfold Spec.pad. cbn [seq map concat Spec.hash]. now rewrite app_nil_r.
Qed.

(** C1: with the fields read by [crypt] in range and a byte-string
    secret, [crypt] returns the body XOR-ed, byte [i] against pad byte
    [i], with the pad [hash_1 || hash_2 || ...] truncated to the body
    length, where the seed is the big-endian session_id, the secret, the
    version byte and the seq_no byte. For a 40-byte body the pad loop
    leaves with exactly three chained hashes and the pad is the first 40
    bytes of their concatenation. *)
Theorem crypt_pseudo_pad (h : TACACSHeader.t) (body : bytes) (s : str) :
  pad_fields_in_range h -> latin1 s ->
  let seed := Spec.seed h s in
  let pad := Spec.pseudo_pad seed (length body) in
  (exists c,
     crypt h body (Some s) = Ok c /\
     length c = length body /\
     forall i, (i < length body)%nat ->
       ord (nth i c x00) = Z.lxor (ord (nth i body x00)) (ord (nth i pad x00)))
  /\
  (length body = 40%nat ->
     let hash_1 := hashlib.md5 seed in
     let hash_2 := hashlib.md5 (seed ++ hash_1) in
     let hash_3 := hashlib.md5 (seed ++ hash_2) in
     crypt_pad (length body) h (length body) (Some s)
       = Ok (hash_1 ++ hash_2 ++ hash_3) /\
     pad = firstn 40 (hash_1 ++ hash_2 ++ hash_3)).
Proof.
  intros Hh Hs seed pad. split.
  - exists (Spec.xor_bytes body pad).
    assert (Hp : (length body <= length pad)%nat)
      by (unfold pad; now rewrite pseudo_pad_length).
    split; [apply crypt_ok; assumption|].
    split; [apply xor_bytes_length, Hp|].
    intros i Hi. apply xor_bytes_nth; assumption.
  - intros H40 hash_1 hash_2 hash_3.
    subst hash_3 hash_2 hash_1 pad seed. rewrite <- pad_3. split.
    + rewrite crypt_pad_ok by (trivial; lia).
      rewrite H40. reflexivity.
    + unfold Spec.pseudo_pad. rewrite H40. reflexivity.
Qed.

(** C2: with the fields read by [crypt] in range and a byte-string
    secret, applying [crypt] to its own output with the same header and
    secret gives back the body. *)
Theorem crypt_involution (h : TACACSHeader.t) (body : bytes) (s : str) :
  pad_fields_in_range h -> latin1 s ->
  (c <- crypt h body (Some s) ;; crypt h c (Some s)) = Ok body.
Proof.
  intros Hh Hs. rewrite (crypt_ok h body s Hh Hs). cbn [bind].
  rewrite (crypt_ok h _ s Hh Hs).
  rewrite xor_bytes_length by (now rewrite pseudo_pad_length).
  f_equal. apply xor_bytes_involutive. now rewrite pseudo_pad_length.
Qed.

(** C6: with the fields read by [crypt] in range and a byte-string
    secret, [crypt] returns as many bytes as the body has, the empty body
    included, and the pad it has built is truncated to exactly that
    length. *)
Theorem crypt_length (h : TACACSHeader.t) (body : bytes) (s : str) :
  pad_fields_in_range h -> latin1 s ->
  (exists c, crypt h body (Some s) = Ok c /\ length c = length body) /\
  (exists pad,
     crypt_pad (length body) h (length body) (Some s) = Ok pad /\
     length (firstn (length body) pad) = length body).
Proof.
  intros Hh Hs. split.
  - rewrite (crypt_ok h body s Hh Hs). eexists. split; [reflexivity|].
    apply xor_bytes_length. now rewrite pseudo_pad_length.
  - rewrite crypt_pad_ok by (trivial; lia). eexists. split; [reflexivity|].
    rewrite pseudo_pad_any_rounds
      by (pose proof (rounds_cover (length body)); lia).
    apply pseudo_pad_length.
Qed.

(** C10: [crypt] reads session_id, version and seq_no only: two headers
    that agree on these give the same outcome for every body and secret,
    whatever their type, flags and length. *)
Theorem crypt_ignores_type_flags_length (h1 h2 : TACACSHeader.t)
    (body : bytes) (s : option str) :
  TACACSHeader.session_id h1 = TACACSHeader.session_id h2 ->
  TACACSHeader.version h1 = TACACSHeader.version h2 ->
  TACACSHeader.seq_no h1 = TACACSHeader.seq_no h2 ->
  crypt h1 body s = crypt h2 body s.
Proof.
  intros Esid Ev Eq. unfold crypt, crypt_fuel. rewrite Esid, Ev, Eq.
  reflexivity.
Qed.

(** ** [TACACSPacket] *)

(** C7: for a packet whose header fields are in range (and whose secret,
    when set, is a byte string), [bytes(packet)] is the 12 packed header
    bytes followed by the transmitted body, which is [crypt] of the body
    when a secret is set and the body itself when the secret is [None]. *)
Theorem packet_bytes (p : TACACSPacket.t) :
  in_range (TACACSPacket.header p) ->
  (forall s, TACACSPacket.secret p = Some s -> latin1 s) ->
  exists hp wire_body,
    TACACSHeader.packed (TACACSPacket.header p) = Ok hp /\
    length hp = 12%nat /\
    TACACSPacket.body p = Ok wire_body /\
    TACACSPacket.__bytes__ p = Ok (hp ++ wire_body) /\
    match TACACSPacket.secret p with
    | Some s =>
        crypt (TACACSPacket.header p) (TACACSPacket.body_bytes p) (Some s)
          = Ok wire_body
    | None => wire_body = TACACSPacket.body_bytes p
    end.
Proof.
  intros Hr Hs. destruct p as [h body secret].
  cbn [TACACSPacket.header TACACSPacket.body_bytes TACACSPacket.secret] in *.
  unfold TACACSPacket.__bytes__, TACACSPacket.body, TACACSPacket.encrypted,
    TACACSPacket.crypt.
  cbn [TACACSPacket.header TACACSPacket.body_bytes TACACSPacket.secret].
  rewrite (packed_ok h Hr).
  assert (Hp : pad_fields_in_range h)
    by (destruct Hr as (Hv & _ & Hq & _ & Hsid & _);
        split; [|split]; assumption).
  destruct secret as [s|].
  - rewrite (crypt_ok h body s Hp (Hs s eq_refl)).
    do 2 eexists. repeat split.
  - do 2 eexists. repeat split.
Qed.

(** ** The theorems at concrete inputs *)

Lemma crypt_pseudo_pad_witness :
  exists c,
    crypt header_1 hello (Some testkey) = Ok c /\ length c = length hello.
Proof.
  destruct (crypt_pseudo_pad header_1 hello testkey) as [(c & E & L & _) _].
  - fields_in_range.
  - byte_string.
  - exists c. split; [exact E | exact L].
Defined.

Lemma crypt_involution_witness :
  (c <- crypt header_1 hello (Some testkey) ;;
   crypt header_1 c (Some testkey)) = Ok hello.
Proof.
  apply (crypt_involution header_1 hello testkey);
    [fields_in_range | byte_string].
Defined.

Lemma crypt_length_witness :
  exists c, crypt header_1 [] (Some testkey) = Ok c /\ length c = 0%nat.
Proof.
  apply (proj1 (crypt_length header_1 [] testkey ltac:(fields_in_range)
                  ltac:(byte_string))).
Defined.

Lemma crypt_ignores_type_flags_length_witness :
  crypt (TACACSHeader.mk 0xC0 1 7 5 1 0) hello (Some testkey) =
  crypt (TACACSHeader.mk 0xC0 2 7 99 1 4) hello (Some testkey).
Proof.
  apply (crypt_ignores_type_flags_length
           (TACACSHeader.mk 0xC0 1 7 5 1 0) (TACACSHeader.mk 0xC0 2 7 99 1 4));
    reflexivity.
Defined.

Lemma packet_bytes_witness :
  exists hp wire_body,
    TACACSPacket.__bytes__ (TACACSPacket.mk header_1 hello None)
      = Ok (hp ++ wire_body) /\
    wire_body = hello.
Proof.
  destruct (packet_bytes (TACACSPacket.mk header_1 hello None))
    as (hp & wb & _ & _ & _ & E & Eb).
  - fields_in_range.
  - intros s Es. discriminate Es.
  - exists hp, wb. split; [exact E | exact Eb].
Defined.

(** Concrete scenario 1 of the specification, by evaluation: one MD5
    step covers the 5-byte body, and a second [crypt] undoes the first. *)
Example scenario_1 :
  crypt_pad 5 header_1 5 (Some testkey)
    = Ok (hashlib.md5 (Spec.seed header_1 testkey)) /\
  crypt header_1 hello (Some testkey) = Ok [x60; x37; xa3; x12; x98] /\
  crypt header_1 [x60; x37; xa3; x12; x98] (Some testkey) = Ok hello.
Proof.
  split; [|split]; vm_compute; reflexivity.
Qed.

(** Concrete scenario 2 of the specification, by evaluation: the pad for
    a 40-byte body, read off as [crypt] of 40 zero bytes. *)
Example scenario_2 :
  option_map (map ord)
    (match crypt header_1 (repeat x00 40) (Some testkey) with
     | Ok c => Some c
     | _ => None
     end)
  = Some [8; 82; 207; 126; 247; 117; 189; 121; 105; 97; 102; 13; 152; 87;
          162; 194; 96; 99; 107; 236; 231; 139; 86; 188; 194; 67; 241; 42;
          25; 233; 8; 222; 144; 40; 202; 96; 43; 137; 42; 21].
Proof. vm_compute. reflexivity. Qed.

(** The digests of the RFC 1321 test suite for the empty message and
    for ["abc"]. *)
Example md5_test_suite :
  hashlib.md5 [] =
    [xd4; x1d; x8c; xd9; x8f; x00; xb2; x04;
     xe9; x80; x09; x98; xec; xf8; x42; x7e] /\
  hashlib.md5 [x61; x62; x63] =
    [x90; x01; x50; x98; x3c; xd2; x4f; xb0;
     xd6; x96; x3f; x7d; x28; xe1; x7f; x72].
Proof. split; vm_compute; reflexivity. Qed.

(** * Further properties of the code *)

(** ** [TACACSHeader]: decoding *)

Lemma be32_range (a b c d : byte) : uint32 (struct.be32 a b c d).
Proof.
  rewrite be32_value. unfold uint32.
  pose proof (ord_range a). pose proof (ord_range b).
  pose proof (ord_range c). pose proof (ord_range d). lia.
Qed.

(** Packing the big-endian value of four bytes gives the four bytes. *)
Lemma pack_I_be32 (a b c d : byte) :
  struct.pack_I (struct.be32 a b c d) = Ok [a; b; c; d].
Proof.
  pose proof (be32_range a b c d) as Hr.
  rewrite (pack_I_ok _ Hr). f_equal.
  pose proof (be_digits _ Hr) as E. cbn [map] in E.
  pose proof (ord_range a). pose proof (ord_range b).
  pose proof (ord_range c). pose proof (ord_range d).
  injection E as Ea Eb Ec Ed.
  f_equal; [|f_equal; [|f_equal; [|f_equal]]]; apply ord_inj.
  - rewrite Ea, be32_value. Z.div_mod_to_equations. lia.
  - rewrite Eb, be32_value. Z.div_mod_to_equations. lia.
  - rewrite Ec, be32_value. Z.div_mod_to_equations. lia.
  - rewrite Ed, be32_value. Z.div_mod_to_equations. lia.
Qed.

(** Decoding looks at the first 12 bytes, in this order. *)
Lemma unpacked_12 (b0 b1 b2 b3 b4 b5 b6 b7 b8 b9 b10 b11 : byte)
    (rest : bytes) :
  TACACSHeader.unpacked
    (b0 :: b1 :: b2 :: b3 :: b4 :: b5 :: b6 :: b7 :: b8 :: b9 :: b10 :: b11
        :: rest)
  = Ok (TACACSHeader.mk (ord b0) (ord b1) (struct.be32 b4 b5 b6 b7)
          (struct.be32 b8 b9 b10 b11) (ord b2) (ord b3)).
Proof. reflexivity. Qed.

(** An input on which decoding returns starts with 12 bytes. *)
Lemma unpacked_returns_inv (raw : bytes) (h : TACACSHeader.t) :
  TACACSHeader.unpacked raw = Ok h ->
  exists b0 b1 b2 b3 b4 b5 b6 b7 b8 b9 b10 b11 rest,
    raw = b0 :: b1 :: b2 :: b3 :: b4 :: b5 :: b6 :: b7 :: b8 :: b9 :: b10
             :: b11 :: rest.
Proof.
  intros E.
  do 12 (destruct raw as [|? raw]; [discriminate E|]).
  repeat eexists.
Qed.

(** X1: decoding an input of at least 12 bytes returns the header whose
    version, type, seq_no and flags are bytes 0, 1, 2 and 3, whose
    session_id is the big-endian value of bytes 4 to 7 and whose length
    is the big-endian value of bytes 8 to 11. *)
Theorem unpacked_layout (raw : bytes) :
  (12 <= length raw)%nat ->
  let byte_at i := ord (nth i raw x00) in
  exists h,
    TACACSHeader.unpacked raw = Ok h /\
    TACACSHeader.version h = byte_at 0%nat /\
    TACACSHeader.type h = byte_at 1%nat /\
    TACACSHeader.seq_no h = byte_at 2%nat /\
    TACACSHeader.flags h = byte_at 3%nat /\
    TACACSHeader.session_id h =
      byte_at 4%nat * 2 ^ 24 + byte_at 5%nat * 2 ^ 16
      + byte_at 6%nat * 2 ^ 8 + byte_at 7%nat /\
    TACACSHeader.length h =
      byte_at 8%nat * 2 ^ 24 + byte_at 9%nat * 2 ^ 16
      + byte_at 10%nat * 2 ^ 8 + byte_at 11%nat.
Proof.
  intros Hlen byte_at.
  do 12 (destruct raw as [|? raw]; [simpl in Hlen; lia|]).
  rewrite unpacked_12. eexists. split; [reflexivity|].
  subst byte_at.
  cbn [nth TACACSHeader.version TACACSHeader.type TACACSHeader.seq_no
       TACACSHeader.flags TACACSHeader.session_id TACACSHeader.length].
  rewrite !be32_value. repeat split.
Qed.

Lemma unpacked_layout_witness :
  exists h,
    TACACSHeader.unpacked
      [xc1; x01; x02; x04; x12; x34; x56; x78; x00; x00; x01; x00; xff] = Ok h /\
    TACACSHeader.seq_no h = 2 /\ TACACSHeader.flags h = 4 /\
    TACACSHeader.session_id h = 0x12345678 /\ TACACSHeader.length h = 256.
Proof.
  destruct (unpacked_layout
              [xc1; x01; x02; x04; x12; x34; x56; x78; x00; x00; x01; x00; xff])
    as (h & E & _ & _ & Es & Ef & Esid & Elen).
  - simpl. lia.
  - exists h. repeat split; assumption.
Defined.

(** X2: a header returned by decoding has every field in the range of
    its wire width, and packing it gives back the first 12 bytes of the
    input. *)
Theorem packed_unpacked (raw : bytes) (h : TACACSHeader.t) :
  TACACSHeader.unpacked raw = Ok h ->
  in_range h /\ TACACSHeader.packed h = Ok (firstn 12 raw).
Proof.
  intros E.
  destruct (unpacked_returns_inv raw h E)
    as (b0 & b1 & b2 & b3 & b4 & b5 & b6 & b7 & b8 & b9 & b10 & b11 & rest
        & ->).
  rewrite unpacked_12 in E. injection E as <-.
  split.
  - unfold in_range. cbn.
    repeat split; try apply ord_range; apply be32_range.
  - unfold TACACSHeader.packed, struct.pack_BBBB.
    cbn [TACACSHeader.version TACACSHeader.type TACACSHeader.seq_no
         TACACSHeader.flags TACACSHeader.session_id TACACSHeader.length].
    rewrite pack_Bs_ok
      by (repeat (apply Forall_cons; [apply ord_range|]); apply Forall_nil).
    rewrite !pack_I_be32. cbn [bind map app firstn]. rewrite !chr_ord.
    reflexivity.
Qed.

Lemma packed_unpacked_witness :
  TACACSHeader.packed (TACACSHeader.mk 0xC1 1 0x12345678 256 2 4)
  = Ok [xc1; x01; x02; x04; x12; x34; x56; x78; x00; x00; x01; x00].
Proof.
  apply (packed_unpacked
           [xc1; x01; x02; x04; x12; x34; x56; x78; x00; x00; x01; x00; xff]).
  reflexivity.
Defined.

(** ** [TACACSHeader]: encoding *)

Lemma pack_B_dichotomy (v : Z) :
  (uint8 v /\ struct.pack_B v = Ok [chr v]) \/
  (~ uint8 v /\ struct.pack_B v = Raise struct_error).
Proof.
  destruct (Z_le_dec 0 v) as [Hlo|Hlo]; [destruct (Z_le_dec v 255) as [Hhi|Hhi]|].
  - left. split; [|apply pack_B_ok]; split; assumption.
  - right. split; [|apply pack_B_raises]; unfold uint8; lia.
  - right. split; [|apply pack_B_raises]; unfold uint8; lia.
Qed.

Lemma pack_I_dichotomy (v : Z) :
  (uint32 v /\ exists bs, struct.pack_I v = Ok bs) \/
  (~ uint32 v /\ struct.pack_I v = Raise struct_error).
Proof.
  destruct (Z_le_dec 0 v) as [Hlo|Hlo];
    [destruct (Z_le_dec v 4294967295) as [Hhi|Hhi]|].
  - left. assert (Hv : uint32 v) by (split; assumption).
    split; [exact Hv|]. rewrite (pack_I_ok v Hv). eexists. reflexivity.
  - right. split; [|apply pack_I_raises]; unfold uint32; lia.
  - right. split; [|apply pack_I_raises]; unfold uint32; lia.
Qed.

(** X3: [packed] has two outcomes only. When every field is in the range
    of its wire width it returns 12 bytes; when some field is not, it
    raises [struct.error]. *)
Theorem packed_outcome (h : TACACSHeader.t) :
  (in_range h /\
   exists bs, TACACSHeader.packed h = Ok bs /\ length bs = 12%nat) \/
  (~ in_range h /\ TACACSHeader.packed h = Raise struct_error).
Proof.
  unfold TACACSHeader.packed, struct.pack_BBBB, in_range.
  cbn [struct.pack_Bs].
  destruct (pack_B_dichotomy (TACACSHeader.version h)) as [[Hv ->]|[Hv ->]];
    [|right; split; [tauto | reflexivity]].
  destruct (pack_B_dichotomy (TACACSHeader.type h)) as [[Ht ->]|[Ht ->]];
    [|right; split; [tauto | reflexivity]].
  destruct (pack_B_dichotomy (TACACSHeader.seq_no h)) as [[Hs ->]|[Hs ->]];
    [|right; split; [tauto | reflexivity]].
  destruct (pack_B_dichotomy (TACACSHeader.flags h)) as [[Hf ->]|[Hf ->]];
    [|right; split; [tauto | reflexivity]].
  destruct (pack_I_dichotomy (TACACSHeader.session_id h))
    as [[Hsid _]|[Hsid ->]]; [|right; split; [tauto | reflexivity]].
  destruct (pack_I_dichotomy (TACACSHeader.length h))
    as [[Hlen _]|[Hlen Elen]].
  - left. split; [tauto|].
    rewrite (pack_I_ok _ Hsid), (pack_I_ok _ Hlen).
    eexists. split; reflexivity.
  - right. split; [tauto|].
    rewrite (pack_I_ok _ Hsid), Elen. reflexivity.
Qed.

(** Whenever [packed] returns, decoding its result returns the header. *)
Lemma unpacked_of_packed (h : TACACSHeader.t) (bs : bytes) :
  TACACSHeader.packed h = Ok bs -> TACACSHeader.unpacked bs = Ok h.
Proof.
  intros E.
  assert (Hr : in_range h) by (apply packed_returns_iff; now exists bs).
  rewrite (packed_ok h Hr) in E. injection E as <-.
  destruct Hr as (Hv & Ht & Hs & Hf & Hsid & Hlen).
  rewrite unpacked_12, !be32_pack_I, !ord_chr_small by assumption.
  destruct h; reflexivity.
Qed.

(** X4: the encoding is injective: two headers that pack to the same
    bytes are equal, field by field. *)
Theorem packed_injective (h1 h2 : TACACSHeader.t) (bs : bytes) :
  TACACSHeader.packed h1 = Ok bs -> TACACSHeader.packed h2 = Ok bs ->
  h1 = h2.
Proof.
  intros E1 E2.
  apply unpacked_of_packed in E1, E2. rewrite E1 in E2.
  now injection E2.
Qed.

Lemma packed_injective_witness :
  TACACSHeader.mk 0xC1 1 305419896 0 1 0
  = TACACSHeader.mk (0xC0 + 1) 1 0x12345678 0 1 0.
Proof.
  apply (packed_injective _ _
           [xc1; x01; x01; x00; x12; x34; x56; x78; x00; x00; x00; x00]);
    reflexivity.
Defined.

(** X5: for a header returned by decoding, [version_max] and
    [version_min] are the high and the low nibble of byte 0: both lie in
    0..15, they are the version shifted right by 4 and masked with 0xF,
    and byte 0 is [16 * version_max + version_min]. *)
Theorem version_nibbles (raw : bytes) (h : TACACSHeader.t) :
  TACACSHeader.unpacked raw = Ok h ->
  0 <= TACACSHeader.version_max h <= 15 /\
  0 <= TACACSHeader.version_min h <= 15 /\
  TACACSHeader.version_max h = Z.shiftr (TACACSHeader.version h) 4 /\
  TACACSHeader.version_min h = Z.land (TACACSHeader.version h) 0xF /\
  ord (nth 0 raw x00)
    = 16 * TACACSHeader.version_max h + TACACSHeader.version_min h.
Proof.
  intros E.
  destruct (unpacked_returns_inv raw h E)
    as (b0 & b1 & b2 & b3 & b4 & b5 & b6 & b7 & b8 & b9 & b10 & b11 & rest
        & ->).
  rewrite unpacked_12 in E. injection E as <-.
  unfold TACACSHeader.version_max, TACACSHeader.version_min.
  cbn [TACACSHeader.version nth].
  pose proof (ord_range b0) as Hb.
  rewrite Z.shiftr_div_pow2 by lia.
  replace (Z.land (ord b0) 0xF) with (ord b0 mod 2 ^ 4)
    by (symmetry; apply (Z.land_ones (ord b0) 4); lia).
  change (2 ^ 4) with 16. change 0x10 with 16.
  repeat split; Z.div_mod_to_equations; lia.
Qed.

Lemma version_nibbles_witness :
  TACACSHeader.version_max (TACACSHeader.mk 0xC1 1 0x12345678 256 2 4) = 12 /\
  TACACSHeader.version_min (TACACSHeader.mk 0xC1 1 0x12345678 256 2 4) = 1.
Proof.
  destruct (version_nibbles
              [xc1; x01; x02; x04; x12; x34; x56; x78; x00; x00; x01; x00]
              (TACACSHeader.mk 0xC1 1 0x12345678 256 2 4) eq_refl)
    as (_ & _ & E1 & E2 & _).
  split; [rewrite E1 | rewrite E2]; reflexivity.
Defined.

(** ** [crypt]: when it raises *)

Lemma encode_latin1_raises (s : str) :
  ~ latin1 s -> six.encode_latin1 s = Raise UnicodeEncodeError.
Proof.
  induction s as [|c s IH]; intros Hs.
  - exfalso. apply Hs. constructor.
  - cbn [six.encode_latin1].
    destruct (Byte.of_N c) as [x|] eqn:E; [|reflexivity].
    rewrite IH; [reflexivity|]. intros Hl. apply Hs. constructor; [|exact Hl].
    apply Byte.to_of_N in E. subst c. apply Byte.to_N_bounded.
Qed.

(** X6: [crypt] checks its inputs in a fixed order, before it looks at
    the body: a session_id outside 32 bits raises [struct.error]; else a
    secret with a code point above 255 raises [UnicodeEncodeError]; else
    a version or seq_no outside one byte raises [struct.error]. *)
Theorem crypt_raises (h : TACACSHeader.t) (body : bytes) (s : str) :
  (~ uint32 (TACACSHeader.session_id h) ->
   crypt h body (Some s) = Raise struct_error) /\
  (uint32 (TACACSHeader.session_id h) -> ~ latin1 s ->
   crypt h body (Some s) = Raise UnicodeEncodeError) /\
  (uint32 (TACACSHeader.session_id h) -> latin1 s ->
   ~ (uint8 (TACACSHeader.version h) /\ uint8 (TACACSHeader.seq_no h)) ->
   crypt h body (Some s) = Raise struct_error).
Proof.
  unfold crypt, crypt_fuel, six.b. repeat split.
  - intros Hsid. now rewrite (pack_I_raises _ Hsid).
  - intros Hsid Hs.
    now rewrite (pack_I_ok _ Hsid), (encode_latin1_raises s Hs).
  - intros Hsid Hs Hvq.
    rewrite (pack_I_ok _ Hsid), (encode_latin1_ok s Hs). cbn [bind].
    destruct (pack_B_dichotomy (TACACSHeader.version h)) as [[Hv ->]|[Hv ->]];
      [|reflexivity].
    destruct (pack_B_dichotomy (TACACSHeader.seq_no h)) as [[Hq ->]|[Hq ->]];
      [|reflexivity].
    tauto.
Qed.

Lemma crypt_raises_witness :
  crypt (TACACSHeader.mk 0xC0 1 (2 ^ 32) 0 1 0) [] (Some [300%N])
    = Raise struct_error /\
  crypt (TACACSHeader.mk 256 1 1 0 1 0) [] (Some [300%N])
    = Raise UnicodeEncodeError /\
  crypt (TACACSHeader.mk 256 1 1 0 1 0) [] (Some testkey)
    = Raise struct_error.
Proof.
  split; [|split].
  - apply (proj1 (crypt_raises (TACACSHeader.mk 0xC0 1 (2 ^ 32) 0 1 0)
                    [] [300%N])).
    unfold uint32; simpl; lia.
  - apply (proj1 (proj2 (crypt_raises (TACACSHeader.mk 256 1 1 0 1 0)
                           [] [300%N]))).
    + unfold uint32; simpl; lia.
    + intros Hs. inversion Hs as [|c l Hc _]. simpl in Hc. lia.
  - apply (proj2 (proj2 (crypt_raises (TACACSHeader.mk 256 1 1 0 1 0)
                           [] testkey))).
    + unfold uint32; simpl; lia.
    + byte_string.
    + unfold uint8; simpl; lia.
Defined.

(** ** [crypt]: the number of hashes *)

Lemma pad_loop_out_of_fuel (seed : bytes) (len fuel : nat) :
  forall k : nat,
    (1 <= k)%nat -> (16 * (k + fuel) < len)%nat ->
    pad_loop fuel seed (Spec.hash seed k) (Spec.pad seed k) len = OutOfFuel.
Proof.
  induction fuel as [|fuel IH]; intros k Hk Hlen; [reflexivity|].
  cbn [pad_loop]. rewrite <- (hash_succ seed k Hk), <- pad_succ.
  destruct (len <=? length (Spec.pad seed (S k)))%nat eqn:E.
  - apply Nat.leb_le in E. rewrite pad_length in E. lia.
  - apply IH; lia.
Qed.

(** With fields in range and a byte-string secret, the pad phase of
    [crypt] runs on the seed of the specification. *)
Lemma crypt_pad_seed (fuel len : nat) (h : TACACSHeader.t) (s : str) :
  pad_fields_in_range h -> latin1 s ->
  crypt_pad fuel h len (Some s) =
    if (length (hashlib.md5 (Spec.seed h s)) <? len)%nat
    then pad_loop fuel (Spec.seed h s) (hashlib.md5 (Spec.seed h s))
           (hashlib.md5 (Spec.seed h s)) len
    else Ok (hashlib.md5 (Spec.seed h s)).
Proof.
  intros (Hsid & Hv & Hq) Hs. unfold crypt_pad, six.b.
  rewrite (pack_I_be4 _ Hsid), (encode_latin1_ok s Hs),
    (pack_B_ok _ Hv), (pack_B_ok _ Hq).
  cbn [bind]. unfold Spec.seed. now rewrite <- !app_assoc.
Qed.

(** X7: for a body of [len] bytes, [crypt] computes exactly
    [k = max(1, ceil(len / 16))] chained digests, one even for the empty
    body: the pad it holds before the truncation is
    [hash_1 || ... || hash_k], of [16 * k] bytes, and the [while] loop
    makes exactly [k - 1] iterations, so that an iteration budget
    suffices if and only if it is at least [k - 1]. *)
Theorem crypt_hash_count (h : TACACSHeader.t) (len : nat) (s : str) :
  pad_fields_in_range h -> latin1 s ->
  let k := Nat.max 1 (Spec.rounds len) in
  (forall fuel, (k - 1 <= fuel)%nat ->
     crypt_pad fuel h len (Some s) = Ok (Spec.pad (Spec.seed h s) k)) /\
  (forall fuel, (fuel < k - 1)%nat ->
     crypt_pad fuel h len (Some s) = OutOfFuel) /\
  length (Spec.pad (Spec.seed h s) k) = (16 * k)%nat.
Proof.
  intros Hh Hs k. pose proof (rounds_cover len) as Hc.
  split; [|split].
  - intros fuel Hfuel. apply crypt_pad_ok; trivial. lia.
  - intros fuel Hfuel. rewrite (crypt_pad_seed fuel len h s Hh Hs).
    rewrite md5_digest_size. unfold hashlib.digest_size.
    assert (Hlen : (16 * (1 + fuel) < len)%nat).
    { apply Nat.nle_gt. intros Hle.
      pose proof (rounds_least len (1 + fuel) Hle). lia. }
    replace (16 <? len)%nat with true by (symmetry; apply Nat.ltb_lt; lia).
    replace (pad_loop fuel (Spec.seed h s) (hashlib.md5 (Spec.seed h s))
               (hashlib.md5 (Spec.seed h s)) len)
      with (pad_loop fuel (Spec.seed h s) (Spec.hash (Spec.seed h s) 1)
              (Spec.pad (Spec.seed h s) 1) len)
      by (now rewrite pad_1).
    apply pad_loop_out_of_fuel; lia.
  - apply pad_length.
Qed.

Lemma crypt_hash_count_witness :
  crypt_pad 2 header_1 40 (Some testkey)
    = Ok (Spec.pad (Spec.seed header_1 testkey) 3) /\
  crypt_pad 1 header_1 40 (Some testkey) = OutOfFuel.
Proof.
  destruct (crypt_hash_count header_1 40 testkey) as (Hok & Hout & _).
  - fields_in_range.
  - byte_string.
  - split; [apply (Hok 2%nat) | apply (Hout 1%nat)];
      change (Nat.max 1 (Spec.rounds 40)) with 3%nat; lia.
Defined.

(** ** [crypt]: one pad for every body *)

Lemma lxor_cancel_pad (x y p : Z) :
  Z.lxor (Z.lxor x p) (Z.lxor y p) = Z.lxor x y.
Proof.
  apply Z.bits_inj'. intros i _. rewrite !Z.lxor_spec.
  destruct (Z.testbit x i), (Z.testbit y i), (Z.testbit p i); reflexivity.
Qed.

Lemma xor_bytes_cancel (b1 : bytes) :
  forall b2 pad : bytes,
    length b1 = length b2 -> (length b1 <= length pad)%nat ->
    Spec.xor_bytes (Spec.xor_bytes b1 pad) (Spec.xor_bytes b2 pad)
    = Spec.xor_bytes b1 b2.
Proof.
  induction b1 as [|x b1 IH]; intros [|y b2] [|p pad] Hlen Hpad;
    simpl in Hlen, Hpad; try lia; trivial.
  unfold Spec.xor_bytes in *. cbn [combine map fst snd]. f_equal.
  - rewrite !ord_chr_small by (apply lxor_uint8; apply ord_range).
    now rewrite lxor_cancel_pad.
  - apply IH; lia.
Qed.

(** X8: the pad depends on the header, the secret and the body length
    only, so two bodies of the same length are XOR-ed with the same pad:
    the XOR of their two outputs is the XOR of the two bodies. *)
Theorem crypt_two_bodies (h : TACACSHeader.t) (b1 b2 : bytes) (s : str) :
  pad_fields_in_range h -> latin1 s -> length b1 = length b2 ->
  exists c1 c2,
    crypt h b1 (Some s) = Ok c1 /\ crypt h b2 (Some s) = Ok c2 /\
    Spec.xor_bytes c1 c2 = Spec.xor_bytes b1 b2.
Proof.
  intros Hh Hs Hlen.
  rewrite (crypt_ok h b1 s Hh Hs), (crypt_ok h b2 s Hh Hs), <- Hlen.
  do 2 eexists. split; [reflexivity|]. split; [reflexivity|].
  apply xor_bytes_cancel; trivial. now rewrite pseudo_pad_length.
Qed.

Lemma crypt_two_bodies_witness :
  exists c1 c2,
    crypt header_1 hello (Some testkey) = Ok c1 /\
    crypt header_1 [x00; x00; x00; x00; x00] (Some testkey) = Ok c2 /\
    Spec.xor_bytes c1 c2 = hello.
Proof.
  destruct (crypt_two_bodies header_1 hello [x00; x00; x00; x00; x00] testkey)
    as (c1 & c2 & E1 & E2 & E).
  - fields_in_range.
  - byte_string.
  - reflexivity.
  - exists c1, c2. split; [exact E1|]. split; [exact E2|].
    rewrite E. reflexivity.
Defined.

Lemma pseudo_pad_prefix (seed : bytes) (n m : nat) :
  (n <= m)%nat ->
  Spec.pseudo_pad seed n = firstn n (Spec.pseudo_pad seed m).
Proof.
  intros Hnm. unfold Spec.pseudo_pad at 2.
  rewrite firstn_firstn, Nat.min_l by exact Hnm.
  symmetry. apply pseudo_pad_any_rounds.
  pose proof (rounds_cover m). lia.
Qed.

Lemma xor_bytes_firstn (n : nat) (body pad : bytes) :
  firstn n (Spec.xor_bytes body pad)
  = Spec.xor_bytes (firstn n body) (firstn n pad).
Proof.
  unfold Spec.xor_bytes. now rewrite firstn_map, combine_firstn.
Qed.

(** X9: [crypt] works as a stream: the output for the first bytes of a
    body does not depend on the bytes that follow, so the output for a
    prefix of a body is the prefix of the output for the body. *)
Theorem crypt_prefix (h : TACACSHeader.t) (b1 b2 : bytes) (s : str) :
  pad_fields_in_range h -> latin1 s ->
  exists c,
    crypt h (b1 ++ b2) (Some s) = Ok c /\
    crypt h b1 (Some s) = Ok (firstn (length b1) c).
Proof.
  intros Hh Hs.
  rewrite (crypt_ok h (b1 ++ b2) s Hh Hs), (crypt_ok h b1 s Hh Hs).
  eexists. split; [reflexivity|]. f_equal.
  rewrite xor_bytes_firstn, firstn_app, Nat.sub_diag, firstn_O, app_nil_r.
  rewrite firstn_all.
  rewrite <- pseudo_pad_prefix by (rewrite length_app; lia).
  reflexivity.
Qed.

Lemma crypt_prefix_witness :
  exists c,
    crypt header_1 (hello ++ hello) (Some testkey) = Ok c /\
    crypt header_1 hello (Some testkey) = Ok (firstn 5 c).
Proof.
  apply (crypt_prefix header_1 hello hello testkey);
    [fields_in_range | byte_string].
Defined.

(** X10: [crypt] loses nothing: under one header and one secret, two
    bodies with the same output are the same body. *)
Theorem crypt_injective (h : TACACSHeader.t) (b1 b2 c : bytes) (s : str) :
  crypt h b1 (Some s) = Ok c -> crypt h b2 (Some s) = Ok c -> b1 = b2.
Proof.
  intros E1 E2.
  assert (Hv : pad_fields_in_range h /\ latin1 s)
    by (apply (crypt_returns_iff h b1 s); now exists c).
  destruct Hv as [Hh Hs].
  rewrite (crypt_ok h b1 s Hh Hs) in E1. rewrite (crypt_ok h b2 s Hh Hs) in E2.
  injection E1 as E1. injection E2 as E2.
  assert (Hlen : length b1 = length b2).
  { rewrite <- (xor_bytes_length b1 (Spec.pseudo_pad (Spec.seed h s) (length b1)))
      by (now rewrite pseudo_pad_length).
    rewrite <- (xor_bytes_length b2 (Spec.pseudo_pad (Spec.seed h s) (length b2)))
      by (now rewrite pseudo_pad_length).
    now rewrite E1, E2. }
  rewrite <- (xor_bytes_involutive b1
                (Spec.pseudo_pad (Spec.seed h s) (length b1)))
    by (now rewrite pseudo_pad_length).
  rewrite <- (xor_bytes_involutive b2
                (Spec.pseudo_pad (Spec.seed h s) (length b2)))
    by (now rewrite pseudo_pad_length).
  now rewrite E1, E2, Hlen.
Qed.

Lemma crypt_injective_witness : hello = [x68; x65; x6c; x6c; x6f].
Proof.
  apply (crypt_injective header_1 hello [x68; x65; x6c; x6c; x6f]
           [x60; x37; xa3; x12; x98] testkey); vm_compute; reflexivity.
Defined.

(** ** [TACACSPacket]: the wire form *)

(** A packet whose wire form is returned has its header fields in range
    and, when it has a secret, a byte-string secret. *)
Lemma packet_bytes_returns_inv (p : TACACSPacket.t) (w : bytes) :
  TACACSPacket.__bytes__ p = Ok w ->
  in_range (TACACSPacket.header p) /\
  (forall s, TACACSPacket.secret p = Some s -> latin1 s).
Proof.
  destruct p as [h body secret].
  unfold TACACSPacket.__bytes__, TACACSPacket.body, TACACSPacket.encrypted,
    TACACSPacket.crypt.
  cbn [TACACSPacket.header TACACSPacket.body_bytes TACACSPacket.secret].
  intros E.
  destruct (TACACSHeader.packed h) as [hp| |] eqn:Ep; try discriminate E.
  cbn [bind] in E. split.
  - apply packed_returns_iff. now exists hp.
  - intros s ->.
    destruct (crypt h body (Some s)) as [c| |] eqn:Ec; try discriminate E.
    apply (crypt_returns_iff h body s). now exists c.
Qed.

(** X11: [bytes(packet)] returns exactly when every header field is in
    the range of its wire width and the secret, when set, is a byte
    string. *)
Theorem packet_bytes_returns_iff (p : TACACSPacket.t) :
  (exists w, TACACSPacket.__bytes__ p = Ok w) <->
  in_range (TACACSPacket.header p) /\
  (forall s, TACACSPacket.secret p = Some s -> latin1 s).
Proof.
  split.
  - intros [w E]. exact (packet_bytes_returns_inv p w E).
  - destruct p as [h body secret].
    unfold TACACSPacket.__bytes__, TACACSPacket.body, TACACSPacket.encrypted,
      TACACSPacket.crypt.
    cbn [TACACSPacket.header TACACSPacket.body_bytes TACACSPacket.secret].
    intros [Hr Hs]. rewrite (packed_ok h Hr). cbn [bind].
    destruct secret as [s|]; [|eexists; reflexivity].
    assert (Hp : pad_fields_in_range h)
      by (destruct Hr as (Hv & _ & Hq & _ & Hsid & _);
          split; [|split]; assumption).
    rewrite (crypt_ok h body s Hp (Hs s eq_refl)). eexists. reflexivity.
Qed.

(** X12: the wire form is 12 bytes longer than the body, whatever the
    length field of the header says, with a secret or without. *)
Theorem packet_bytes_length (p : TACACSPacket.t) (w : bytes) :
  TACACSPacket.__bytes__ p = Ok w ->
  length w = (12 + length (TACACSPacket.body_bytes p))%nat.
Proof.
  intros E.
  assert (Hv : in_range (TACACSPacket.header p) /\
               (forall s, TACACSPacket.secret p = Some s -> latin1 s))
    by (exact (packet_bytes_returns_inv p w E)).
  destruct Hv as [Hr Hs]. destruct p as [h body secret].
  unfold TACACSPacket.__bytes__, TACACSPacket.body, TACACSPacket.encrypted,
    TACACSPacket.crypt in E.
  cbn [TACACSPacket.header TACACSPacket.body_bytes TACACSPacket.secret] in *.
  rewrite (packed_ok h Hr) in E. cbn [bind] in E.
  assert (Hp : pad_fields_in_range h)
    by (destruct Hr as (Hv & _ & Hq & _ & Hsid & _);
        split; [|split]; assumption).
  destruct secret as [s|].
  - rewrite (crypt_ok h body s Hp (Hs s eq_refl)) in E. injection E as <-.
    cbn [app length].
    rewrite xor_bytes_length by (now rewrite pseudo_pad_length).
    reflexivity.
  - injection E as <-. reflexivity.
Qed.

Lemma packet_bytes_length_witness :
  length [xc0; x01; x01; x00; x00; x00; x00; x01; x00; x00; x00; x63;
          x60; x37; xa3; x12; x98]
  = (12 + length hello)%nat.
Proof.
  apply (packet_bytes_length
           (TACACSPacket.mk (TACACSHeader.mk 0xC0 1 1 99 1 0) hello
              (Some testkey))).
  vm_compute. reflexivity.
Defined.

(** X13: what is sent can be read back. For a packet whose wire form is
    [w], decoding [w] returns the header of the packet, and a packet
    built by the receiver from that header, the bytes of [w] after the
    first 12 and the same secret has the body of the sender. *)
Theorem packet_wire_roundtrip (p : TACACSPacket.t) (w : bytes) :
  TACACSPacket.__bytes__ p = Ok w ->
  TACACSHeader.unpacked w = Ok (TACACSPacket.header p) /\
  TACACSPacket.body
    (TACACSPacket.mk (TACACSPacket.header p) (skipn 12 w)
       (TACACSPacket.secret p))
  = Ok (TACACSPacket.body_bytes p).
Proof.
  intros E.
  assert (Hv : in_range (TACACSPacket.header p) /\
               (forall s, TACACSPacket.secret p = Some s -> latin1 s))
    by (exact (packet_bytes_returns_inv p w E)).
  destruct Hv as [Hr Hs]. destruct p as [h body secret].
  unfold TACACSPacket.__bytes__, TACACSPacket.body, TACACSPacket.encrypted,
    TACACSPacket.crypt in *.
  cbn [TACACSPacket.header TACACSPacket.body_bytes TACACSPacket.secret] in *.
  pose proof (unpacked_of_packed h) as Hu.
  rewrite (packed_ok h Hr) in E, Hu. cbn [bind] in E.
  specialize (Hu _ eq_refl). rewrite unpacked_12 in Hu.
  assert (Hp : pad_fields_in_range h)
    by (destruct Hr as (Hv & _ & Hq & _ & Hsid & _);
        split; [|split]; assumption).
  destruct secret as [s|].
  - rewrite (crypt_ok h body s Hp (Hs s eq_refl)) in E. injection E as <-.
    cbn [app skipn]. rewrite unpacked_12. split; [exact Hu|].
    rewrite (crypt_ok h _ s Hp (Hs s eq_refl)).
    rewrite xor_bytes_length by (now rewrite pseudo_pad_length).
    f_equal. apply xor_bytes_involutive. now rewrite pseudo_pad_length.
  - injection E as <-. cbn [app skipn]. rewrite unpacked_12.
    split; [exact Hu | reflexivity].
Qed.

Lemma packet_wire_roundtrip_witness :
  let w := [xc0; x01; x01; x00; x00; x00; x00; x01; x00; x00; x00; x05;
            x60; x37; xa3; x12; x98] in
  TACACSHeader.unpacked w = Ok header_1 /\
  TACACSPacket.body (TACACSPacket.mk header_1 (skipn 12 w) (Some testkey))
    = Ok hello.
Proof.
  apply (packet_wire_roundtrip
           (TACACSPacket.mk header_1 hello (Some testkey))).
  vm_compute. reflexivity.
Defined.

(** X14: on a packet without a secret, [body] returns the body as it is
    without looking at the header, even one that cannot be packed, while
    reading the [crypt] property raises instead of returning. *)
Theorem packet_without_secret (p : TACACSPacket.t) :
  TACACSPacket.secret p = None ->
  TACACSPacket.body p = Ok (TACACSPacket.body_bytes p) /\
  exists e, TACACSPacket.crypt p = Raise e.
Proof.
  destruct p as [h body secret]. cbn [TACACSPacket.secret]. intros ->.
  split; [reflexivity|].
  unfold TACACSPacket.crypt, crypt, crypt_fuel.
  cbn [TACACSPacket.header TACACSPacket.body_bytes TACACSPacket.secret].
  destruct (pack_I_dichotomy (TACACSHeader.session_id h))
    as [[_ [bs ->]]|[_ ->]]; eexists; reflexivity.
Qed.

Lemma packet_without_secret_witness :
  TACACSPacket.body
    (TACACSPacket.mk (TACACSHeader.mk 999 1 1 5 1 0) hello None) = Ok hello /\
  exists e,
    TACACSPacket.crypt
      (TACACSPacket.mk (TACACSHeader.mk 999 1 1 5 1 0) hello None) = Raise e.
Proof.
  apply (packet_without_secret
           (TACACSPacket.mk (TACACSHeader.mk 999 1 1 5 1 0) hello None)).
  reflexivity.
Defined.

(** ** [TACACSHeader.__str__] *)

Lemma digits_not_minus (d : Decimal.uint) (r : str) :
  builtins.digits d <> 45%N :: r.
Proof. destruct d; discriminate. Qed.

Lemma digits_inj (d1 : Decimal.uint) :
  forall d2, builtins.digits d1 = builtins.digits d2 -> d1 = d2.
Proof.
  induction d1 as [|d1 IH|d1 IH|d1 IH|d1 IH|d1 IH|d1 IH|d1 IH|d1 IH|d1 IH|d1 IH];
    intros [|d2|d2|d2|d2|d2|d2|d2|d2|d2|d2] E; try discriminate E;
    try reflexivity; injection E as E; f_equal; apply IH, E.
Qed.

Lemma str_of_int_inj (z1 z2 : Z) :
  builtins.str_of_int z1 = builtins.str_of_int z2 -> z1 = z2.
Proof.
  unfold builtins.str_of_int. intros E.
  rewrite <- (DecimalZ.of_to z1), <- (DecimalZ.of_to z2).
  destruct (Z.to_int z1) as [d1|d1], (Z.to_int z2) as [d2|d2].
  - now rewrite (digits_inj d1 d2 E).
  - destruct (digits_not_minus d1 _ E).
  - symmetry in E. destruct (digits_not_minus d2 _ E).
  - injection E as E. now rewrite (digits_inj d1 d2 E).
Qed.

Lemma digits_no_comma (d : Decimal.uint) : ~ In 44%N (builtins.digits d).
Proof.
  induction d as [|d IH|d IH|d IH|d IH|d IH|d IH|d IH|d IH|d IH|d IH];
    cbn [builtins.digits In]; [tauto|..];
    intros [H|H]; first [discriminate H | exact (IH H)].
Qed.

Lemma str_of_int_no_comma (z : Z) : ~ In 44%N (builtins.str_of_int z).
Proof.
  unfold builtins.str_of_int. destruct (Z.to_int z) as [d|d].
  - apply digits_no_comma.
  - intros [H|H]; [discriminate H | exact (digits_no_comma d H)].
Qed.

(** Two texts that agree up to and after their first comma. *)
Lemma split_at_comma (a : str) :
  forall a' r r' : str,
    ~ In 44%N a -> ~ In 44%N a' ->
    a ++ 44%N :: r = a' ++ 44%N :: r' -> a = a' /\ r = r'.
Proof.
  induction a as [|c a IH]; intros [|c' a'] r r' Ha Ha' E; cbn [app] in E.
  - injection E as ->. split; reflexivity.
  - injection E as <- _. destruct Ha'. now left.
  - injection E as -> _. destruct Ha. now left.
  - injection E as -> E.
    destruct (IH a' r r') as [-> ->]; trivial.
    + intros H. apply Ha. now right.
    + intros H. apply Ha'. now right.
    + split; reflexivity.
Qed.

(** One field of the text, followed by the separator and the rest. *)
Lemma field_then_rest (prefix : str) (z z' : Z) (r r' : str) :
  builtins.percent_s prefix z ++ builtins.comma_space ++ r
  = builtins.percent_s prefix z' ++ builtins.comma_space ++ r' ->
  z = z' /\ r = r'.
Proof.
  unfold builtins.percent_s. rewrite <- !app_assoc. intros E.
  apply app_inv_head in E.
  change builtins.comma_space with [44%N; 32%N] in E. cbn [app] in E.
  apply split_at_comma in E; try apply str_of_int_no_comma.
  destruct E as [Ez Er]. injection Er as Er.
  split; [apply str_of_int_inj, Ez | exact Er].
Qed.

(** X15: the text of a header names the header: two headers with the
    same [__str__] have the same six fields. *)
Theorem header_str_injective (h1 h2 : TACACSHeader.t) :
  TACACSHeader.__str__ h1 = TACACSHeader.__str__ h2 -> h1 = h2.
Proof.
  destruct h1 as [v1 t1 sid1 len1 q1 f1], h2 as [v2 t2 sid2 len2 q2 f2].
  unfold TACACSHeader.__str__.
  cbn [builtins.join TACACSHeader.version TACACSHeader.type
       TACACSHeader.session_id TACACSHeader.length TACACSHeader.seq_no
       TACACSHeader.flags].
  intros E.
  apply field_then_rest in E. destruct E as [-> E].
  apply field_then_rest in E. destruct E as [-> E].
  apply field_then_rest in E. destruct E as [-> E].
  apply field_then_rest in E. destruct E as [-> E].
  apply field_then_rest in E. destruct E as [-> E].
  unfold builtins.percent_s in E. apply app_inv_head in E.
  now rewrite (str_of_int_inj f1 f2 E).
Qed.

Lemma header_str_injective_witness :
  TACACSHeader.mk 0xC1 1 305419896 0 1 0
  = TACACSHeader.mk (0xC0 + 1) 1 0x12345678 0 1 0.
Proof.
  apply (header_str_injective (TACACSHeader.mk 0xC1 1 305419896 0 1 0)
           (TACACSHeader.mk (0xC0 + 1) 1 0x12345678 0 1 0)).
  vm_compute. reflexivity.
Defined.

(** The text of the header of the specification's third scenario, by
    evaluation. *)
Example header_str_scenario_3 :
  TACACSHeader.__str__ (TACACSHeader.mk 0xC1 1 305419896 0 1 0)
  = builtins.scenario_3_line.
Proof. vm_compute. reflexivity. Qed.
